(** * sptr.h: checked array handles over malloc/free

    A shallow embedding of the macros of [sptr.h], in both builds, and of
    the small part of the C memory model they run on.

    The macros are computations in a state-and-outcome monad: a computation
    returns a value and a new state, or leaves the process through [exit],
    or is undefined.  Undefined stands for every case in which the source
    and the C standard fix no outcome: a load or a store outside an
    allocated block or into a block that was freed, a [free] of anything
    but [NULL] or the start of an allocated block, an assignment between
    types that C refuses, and a read of bytes that were never written or
    were last written as an object of another size or type, where the
    value read is unspecified or depends on the representation.  That a
    computation is undefined says that nothing is guaranteed of it, not
    that it does nothing.

    Memory is a set of blocks.  A block holds objects, each at its byte
    offset and with its size in bytes; a store converts the value to the
    type of the object, puts the object there and does away with the
    objects whose bytes it overlaps.

    A macro's handle argument is an expression, evaluated at each place
    the macro's body names it, as the preprocessor has it.  The count
    argument of [sptr_alloc] is a text, pasted without parentheses after
    [sizeof(type) *].  The other arguments are values.  The source position
    of each expansion ([__FILE__], [__LINE__]) is an argument of the checked
    macros.

    Sizes are those of an LP64 target: [size_t], [long] and pointers have
    64 bits, [int] has 32, [char] is signed and has 8. *)

From Stdlib Require Import ZArith Lia.
From stdpp Require Import base option list gmap strings.

Local Open Scope Z_scope.

(** ** Machine integers *)

(** Conversion to [size_t] (64 bits, unsigned). *)
Definition to_size_t (z : Z) : Z := z mod 2 ^ 64.

(** Conversion to [int] (32 bits, two's complement). *)
Definition to_int (z : Z) : Z := (z + 2 ^ 31) mod 2 ^ 32 - 2 ^ 31.

(** Conversion to [char] (8 bits) and to [long] (64 bits). *)
Definition to_char (z : Z) : Z := (z + 2 ^ 7) mod 2 ^ 8 - 2 ^ 7.
Definition to_long (z : Z) : Z := (z + 2 ^ 63) mod 2 ^ 64 - 2 ^ 63.

(** ** The text of a count *)

(** The count argument of [sptr_alloc] as the preprocessor sees it.
    [Prim n] is a text that [sizeof(type) *] multiplies as a whole: a
    constant, a name, a parenthesised expression or a product of those, of
    value [n].  [Add e n] is [e + m] and [Sub e n] is [e - m] for a further
    operand [m] of value [n]: the paste multiplies the first operand
    only. *)
Inductive text : Type :=
| Prim (n : Z)
| Add (e : text) (n : Z)
| Sub (e : text) (n : Z).

(** The value of the text on its own, as in [(sptr){p, size, isf}]. *)
Fixpoint count (e : text) : Z :=
  match e with
  | Prim n => n
  | Add e n => count e + n
  | Sub e n => count e - n
  end.

(** The value of [k * size] with the text pasted in for [size]. *)
Fixpoint pasted (k : Z) (e : text) : Z :=
  match e with
  | Prim n => k * n
  | Add e n => pasted k e + n
  | Sub e n => pasted k e - n
  end.

(** ** Pointers and memory *)

(** Blocks are named by positive numbers. *)
Abbreviation block := positive.

Inductive pointer : Type :=
| Null
| Ptr (b : block) (ofs : Z).

Global Instance pointer_eq_dec : EqDecision pointer.
Proof. solve_decision. Defined.

Definition is_null (p : pointer) : bool :=
  match p with Null => true | Ptr _ _ => false end.

Definition block_of (p : pointer) : option block :=
  match p with Null => None | Ptr b _ => Some b end.

(** [p + d] on a byte offset [d]; the macros only ever add to the pointer
    they got from [malloc]. *)
Definition ptr_add (p : pointer) (d : Z) : pointer :=
  match p with
  | Null => Null
  | Ptr b o => Ptr b (o + d)
  end.

(** Where a macro was expanded: [__FILE__] and [__LINE__]. *)
Record site : Type := Site { s_file : string; s_line : Z }.

(** The source position of line [n] of the program under test. *)
Definition here (n : Z) : site := Site "main.c" n.

(** One line on [stderr], ["<file>:<line> error: <message>"], kept in its
    three parts. *)
Record diag : Type := Diag { d_file : string; d_line : Z; d_msg : string }.

Module Mem.
Section WithValues.
(** The values a memory cell can hold; each build mode has its own, since
    the handle struct differs. *)
Context {V : Type}.

(** An object in memory: the number of bytes it was written with, and its
    value. *)
Record cell : Type := Cell { csize : Z; cval : V }.

(** An allocated block: its size in bytes and the objects stored in it,
    keyed by the offset of their first byte.  No two objects overlap. *)
Record blk : Type := Blk { bsize : Z; bcont : gmap Z cell }.

(** The objects that an object of [sz] bytes at offset [o] does not
    overlap. *)
Definition clear_of (o sz : Z) (m : gmap Z cell) : gmap Z cell :=
  filter (fun oc => oc.1 + csize oc.2 <= o \/ o + sz <= oc.1) m.

(** The state of the process.  [heap] holds the blocks that are allocated
    now; a block that was freed is gone from it and its name is never
    used again.  [script] decides the next calls of [malloc] ([false]: the
    request is refused and [malloc] returns [NULL]); when it runs out,
    requests are satisfied.  [locals] are the variables of the program
    and [stderr] is what has been printed so far. *)
Record state : Type := State {
  heap : gmap block blk;
  next : block;
  script : list bool;
  locals : gmap string V;
  stderr : list diag
}.

Inductive outcome (A : Type) : Type :=
| Ret (a : A) (s : state)
| Exit (status : Z) (s : state)
| Undef.
Global Arguments Ret {A} a s.
Global Arguments Exit {A} status s.
Global Arguments Undef {A}.

Definition M (A : Type) : Type := state -> outcome A.

Definition ret {A} (a : A) : M A := fun s => Ret a s.

Definition bind {A B} (m : M A) (k : A -> M B) : M B :=
  fun s =>
    match m s with
    | Ret a s' => k a s'
    | Exit c s' => Exit c s'
    | Undef => Undef
    end.

Definition undef {A} : M A := fun _ => Undef.

(** [exit(status)] *)
Definition exit {A} (status : Z) : M A := fun s => Exit status s.

(** [fprintf(stderr, "%s:%d error: <msg>\n", __FILE__, __LINE__)] *)
Definition eprintf (at_ : site) (msg : string) : M unit :=
  fun s =>
    Ret tt (State (heap s) (next s) (script s) (locals s)
                  (stderr s ++ [Diag (s_file at_) (s_line at_) msg])).

Definition set_heap (h : gmap block blk) (s : state) : state :=
  State h (next s) (script s) (locals s) (stderr s).

(** [malloc(sz)]: [NULL] when the allocator refuses, otherwise a pointer
    to the start of a fresh block of [sz] bytes with nothing stored in
    it. *)
Definition malloc (sz : Z) : M pointer :=
  fun s =>
    match script s with
    | false :: rest =>
        Ret Null (State (heap s) (next s) rest (locals s) (stderr s))
    | ok =>
        Ret (Ptr (next s) 0)
            (State (<[next s := Blk sz ∅]> (heap s)) (Pos.succ (next s))
                   (tail ok) (locals s) (stderr s))
    end.

(** [free(p)]: nothing on [NULL]; the block goes away when [p] is the
    pointer [malloc] returned for a block still allocated; anything else
    is undefined. *)
Definition free (p : pointer) : M unit :=
  fun s =>
    match p with
    | Null => Ret tt s
    | Ptr b o =>
        match heap s !! b with
        | Some _ =>
            if decide (o = 0) then Ret tt (set_heap (delete b (heap s)) s)
            else Undef
        | None => Undef
        end
    end.

(** Is an object of [sz] bytes at [p] inside an allocated block? *)
Definition valid_access (sz : Z) (p : pointer) (s : state) : bool :=
  match p with
  | Null => false
  | Ptr b o =>
      match heap s !! b with
      | Some k => bool_decide (0 <= o /\ o + sz <= bsize k)
      | None => false
      end
  end.

(** Reading an object of [sz] bytes through [p]: the object that was
    written there with that size.  Bytes that hold no such object, because
    nothing was written there or because what was written there had another
    size or began at another offset, have no value here: the read is
    undefined. *)
Definition load (sz : Z) (p : pointer) : M V :=
  fun s =>
    match p with
    | Null => Undef
    | Ptr b o =>
        match heap s !! b with
        | Some k =>
            if bool_decide (0 <= o /\ o + sz <= bsize k) then
              match bcont k !! o with
              | Some c => if decide (csize c = sz) then Ret (cval c) s else Undef
              | None => Undef
              end
            else Undef
        | None => Undef
        end
    end.

(** The object of [sz] bytes at [o], if the block has one. *)
Definition object_at (sz : Z) (k : blk) (o : Z) : option V :=
  c ← bcont k !! o; if decide (csize c = sz) then Some (cval c) else None.

(** A block with an object of [sz] bytes and value [v] written at [o]. *)
Definition put (o sz : Z) (v : V) (k : blk) : blk :=
  Blk (bsize k) (<[o := Cell sz v]> (clear_of o sz (bcont k))).

(** Writing an object of [sz] bytes through [p]. *)
Definition store (sz : Z) (p : pointer) (v : V) : M unit :=
  fun s =>
    match p with
    | Null => Undef
    | Ptr b o =>
        match heap s !! b with
        | Some k =>
            if bool_decide (0 <= o /\ o + sz <= bsize k) then
              Ret tt (set_heap (<[b := put o sz v k]> (heap s)) s)
            else Undef
        | None => Undef
        end
    end.

(** Reading and writing a variable of the program. *)
Definition get_local (x : string) : M V :=
  fun s => match locals s !! x with Some v => Ret v s | None => Undef end.

Definition set_local (x : string) (v : V) : M unit :=
  fun s => Ret tt (State (heap s) (next s) (script s) (<[x := v]> (locals s)) (stderr s)).

(** The process starts with nothing allocated. *)
Definition init (sc : list bool) : state := State ∅ 1%positive sc ∅ [].
End WithValues.
Global Arguments cell : clear implicits.
Global Arguments blk : clear implicits.
Global Arguments state : clear implicits.
Global Arguments outcome : clear implicits.
Global Arguments M : clear implicits.
End Mem.

Export Mem.

Global Instance cell_eq_dec {V} `{EqDecision V} : EqDecision (cell V).
Proof. solve_decision. Defined.

Global Instance M_ret {V} : MRet (M V) := fun A => @ret V A.
Global Instance M_bind {V} : MBind (M V) := fun A B k m => @bind V A B m k.

(** ** Vocabulary of the statements *)

(** The next [k] requests to [malloc] are satisfied. *)
Definition grants (k : nat) (sc : list bool) : bool := forallb id (take k sc).

(** The state a computation ends in, when it does not go wrong. *)
Definition final {V A} (m : M V A) (s : state V) : state V :=
  match m s with
  | Ret _ s' => s'
  | Exit _ s' => s'
  | Undef => s
  end.

(** The value a computation returns, if it returns. *)
Definition value {V A} (o : outcome V A) : option A :=
  match o with
  | Ret a _ => Some a
  | _ => None
  end.

(** A computation that only reads: when it returns, the state is the one
    it started in. *)
Definition reads_only {V A} (m : M V A) : Prop :=
  forall s a s', m s = Ret a s' -> s' = s.

(** A computation that prints nothing when it returns. *)
Definition quiet {V A} (m : M V A) : Prop :=
  forall s a s', m s = Ret a s' -> stderr s' = stderr s.

(** ** Element types *)

Inductive ctype : Type :=
| Tchar
| Tint
| Tlong
| Tsptr
| Tstruct (bytes : positive).

(** ** What the macros report *)

Inductive error : Type :=
| AllocationFailure
| IndexOutOfRange
| UseAfterFree
| DoubleFree.

(** The message of each [fprintf] of the header. *)
Definition message (e : error) : string :=
  match e with
  | AllocationFailure => "memory allocation failed"
  | IndexOutOfRange => "index out of the range"
  | UseAfterFree => "use after free"
  | DoubleFree => "double free"
  end.

(** [s] with one more line on [stderr]. *)
Definition reported {V} (at_ : site) (e : error) (s : state V) : state V :=
  State (heap s) (next s) (script s) (locals s)
        (stderr s ++ [Diag (s_file at_) (s_line at_) (message e)]).

(** The macro printed the line for [e] and left through [exit(1)], having
    changed nothing else. *)
Definition fails_with {V A} (at_ : site) (e : error) (s : state V)
    (o : outcome V A) : Prop :=
  o = Exit 1 (reported at_ e s).

(** ** Traces *)

(** The statements of a program that uses the header, one per line.
    Handles live in variables; elements hold integers, structs or, in a
    matrix, the handles of the rows.  The count of an allocation is a
    constant.  The element a statement writes or prints is given by a
    number: the integer itself for an integer type, the contents of the
    struct for a struct type. *)
Inductive op : Type :=
| Alloc (x : string) (T : ctype) (n : Z)      (* sptr x = sptr_alloc(T, n);     *)
| Copy (x y : string)                         (* sptr x = y;                    *)
| Put (T : ctype) (x : string) (i v : Z)      (* sptr_at(T, x, i) = v;          *)
| Get (T : ctype) (x : string) (i : Z)        (* print sptr_at(T, x, i)         *)
| PutRow (x : string) (i : Z) (y : string)    (* sptr_at(sptr, x, i) = y;       *)
| GetRow (y x : string) (i : Z)               (* sptr y = sptr_at(sptr, x, i);  *)
| PutMat (T : ctype) (x : string) (i j v : Z) (* sptr_mat(T, x, i, j) = v;      *)
| GetMat (T : ctype) (x : string) (i j : Z)   (* print sptr_mat(T, x, i, j)     *)
| Free (x : string).                          (* sptr_free(x);                  *)

(** Element types whose size is the same in both builds: all but the
    handle itself, which loses a field in release mode. *)
Definition plain (T : ctype) : bool :=
  match T with Tsptr => false | _ => true end.

(** What a buffer is allocated for: elements of plain types, or handles
    (the rows of a matrix). *)
Inductive kind : Type := KBytes | KRows.

Global Instance kind_eq_dec : EqDecision kind.
Proof. solve_decision. Defined.

Definition kind_of (T : ctype) : kind := if plain T then KBytes else KRows.

(** ** Checked mode (the default build) *)

Module Checked.

(** [typedef struct { void* ptr; size_t size; char *isf; } sptr;] *)
Record sptr : Type := Sptr { ptr : pointer; size : Z; isf : pointer }.

(** What an object holds: an integer, a handle, or a struct of [bytes]
    bytes with its contents. *)
Inductive val : Type :=
| Vint (z : Z)
| Vsptr (h : sptr)
| Vstruct (bytes : positive) (contents : Z).

Definition sizeof (T : ctype) : Z :=
  match T with
  | Tchar => 1
  | Tint => 4
  | Tlong => 8
  | Tsptr => 24
  | Tstruct n => Z.pos n
  end.

Definition as_int (v : val) : M val Z :=
  match v with Vint z => mret z | _ => undef end.

Definition as_sptr (v : val) : M val sptr :=
  match v with Vsptr h => mret h | _ => undef end.

(** The number a trace prints for an element. *)
Definition as_num (v : val) : M val Z :=
  match v with Vint z => mret z | Vstruct _ d => mret d | Vsptr _ => undef end.

(** The element of type [T] a trace writes for the number [z]. *)
Definition elem (T : ctype) (z : Z) : val :=
  match T with Tstruct n => Vstruct n z | _ => Vint z end.

(** Conversion as by assignment to an object of type [T]: an integer
    wraps to the width of an integer type; a handle and a struct are
    assigned to their own type only, C refuses the other pairs. *)
Definition convert (T : ctype) (v : val) : option val :=
  match T, v with
  | Tchar, Vint z => Some (Vint (to_char z))
  | Tint, Vint z => Some (Vint (to_int z))
  | Tlong, Vint z => Some (Vint (to_long z))
  | Tsptr, Vsptr h => Some (Vsptr h)
  | Tstruct n, Vstruct m d => if decide (n = m) then Some (Vstruct m d) else None
  | _, _ => None
  end.

Global Instance sptr_eq_dec : EqDecision sptr.
Proof. solve_decision. Defined.
Global Instance val_eq_dec : EqDecision val.
Proof. solve_decision. Defined.

(** [v] is a value of type [T]: conversion to [T] leaves it as it is. *)
Definition has_type (T : ctype) (v : val) : bool :=
  bool_decide (convert T v = Some v).

(** [*sp.isf || !sp.isf], the test shared by [sptr_at] and [sptr_free]:
    the flag is read first, the pointer to it is compared with [NULL]
    only when the flag read as zero.  [sp] is the macro's argument and is
    evaluated at each place the macro's body names it. *)
Definition flag_test (sp : M val sptr) : M val bool :=
  h ← sp;
  c ← load 1 (isf h) ≫= as_int;
  if bool_decide (c ≠ 0) then mret true
  else h' ← sp; mret (is_null (isf h')).

(** [sptr_alloc(type, size)].  The request is [sizeof(type) * size] with
    the text of [size] pasted in, computed in [size_t]; the field is the
    value of [size], converted to [size_t]. *)
Definition sptr_alloc (at_ : site) (type : ctype) (size : text) : M val sptr :=
  p ← malloc (to_size_t (pasted (sizeof type) size));
  isf ← malloc 1;
  store 1 isf (Vint 0);;
  if is_null p then
    (eprintf at_ "memory allocation failed";; exit 1 : M val sptr)
  else mret (Sptr p (to_size_t (count size)) isf).

(** [sptr_at(type, sp, ind)] up to the outer [*]: the pointer to the
    element.  [ind] is a value of a signed integer type; the comparison
    with the [size_t] field converts it. *)
Definition sptr_at (at_ : site) (type : ctype) (sp : M val sptr) (ind : Z)
    : M val pointer :=
  h ← sp;
  if (size h <=? to_size_t ind) || (ind <? 0) then
    (eprintf at_ "index out of the range";; exit 1 : M val pointer)
  else
    dead ← flag_test sp;
    if dead : bool then
      (eprintf at_ "use after free";; exit 1 : M val pointer)
    else
      h' ← sp; mret (ptr_add (ptr h') (ind * sizeof type)).

(** [sptr_free(sp)] *)
Definition sptr_free (at_ : site) (sp : M val sptr) : M val unit :=
  dead ← flag_test sp;
  if dead : bool then
    (eprintf at_ "double free";; exit 1 : M val unit)
  else
    h1 ← sp; store 1 (isf h1) (Vint 1);;
    h2 ← sp; free (ptr h2);;
    h3 ← sp; free (isf h3).

(** The element the pointer of [sptr_at] designates, read: [*l] with [l]
    a [type*] yields the object of that type stored there. *)
Definition rd (type : ctype) (l : pointer) : M val val :=
  v ← load (sizeof type) l;
  if has_type type v then mret v else undef.

(** The element written: [*l = v] stores [v] converted to [type]. *)
Definition wr (type : ctype) (l : pointer) (v : val) : M val unit :=
  match convert type v with
  | Some w => store (sizeof type) l w
  | None => undef
  end.

(** [sptr_at(sptr, sp, i)] as the handle expression it is in [sptr_mat]. *)
Definition row (at_ : site) (sp : M val sptr) (i : Z) : M val sptr :=
  l ← sptr_at at_ Tsptr sp i; v ← rd Tsptr l; as_sptr v.

(** [sptr_mat(type, sp, i, j)] is [sptr_at(type, sptr_at(sptr, sp, i), j)]. *)
Definition sptr_mat (at_ : site) (type : ctype) (sp : M val sptr) (i j : Z)
    : M val pointer :=
  sptr_at at_ type (row at_ sp i) j.

(** A handle held in a variable. *)
Definition var (x : string) : M val sptr := get_local x ≫= as_sptr.

(** The flag cell of [h] is allocated and holds zero: the allocation has
    not been released. *)
Definition flag_clear (h : sptr) (s : state val) : bool :=
  match isf h with
  | Ptr bf o =>
      match heap s !! bf with
      | Some kf =>
          bool_decide (o = 0 /\ 1 <= bsize kf /\
                       bcont kf !! 0 = Some (Cell 1 (Vint 0)))
      | None => false
      end
  | Null => false
  end.

(** The block [h]'s buffer pointer designates, when it is the start of an
    allocated block other than the flag's. *)
Definition buffer_of (h : sptr) (s : state val) : option (blk val) :=
  match ptr h with
  | Ptr bp o => if decide (o = 0 /\ ptr h ≠ isf h) then heap s !! bp else None
  | Null => None
  end.

(** What [sptr_free] needs to succeed on [h]: a clear flag and a buffer
    that [free] accepts. *)
Definition releasable (h : sptr) (s : state val) : bool :=
  flag_clear h s && bool_decide (is_Some (buffer_of h s)).

(** The invariant of a handle between [sptr_alloc] and [sptr_free]: the
    flag is clear and the buffer is an allocated block, other than the
    flag's, with room for [size h] elements of type [T]. *)
Definition live_handle (T : ctype) (h : sptr) (s : state val) : bool :=
  flag_clear h s &&
  match buffer_of h s with
  | Some kp => bool_decide (size h * sizeof T <= bsize kp)
  | None => false
  end.

(** The flag cell of [h] is allocated and holds something other than zero. *)
Definition flag_raised (h : sptr) (s : state val) : bool :=
  match isf h with
  | Ptr bf o =>
      match heap s !! bf with
      | Some kf =>
          bool_decide (0 <= o /\ o + 1 <= bsize kf) &&
          match bcont kf !! o with
          | Some (Cell 1 (Vint c)) => bool_decide (c ≠ 0)
          | _ => false
          end
      | None => false
      end
  | Null => false
  end.

(** The state [sptr_free] leaves when it succeeds on [h]: the buffer's block
    and the flag's block are gone from the heap, the rest is as it was. *)
Definition released (h : sptr) (s : state val) : state val :=
  match ptr h, isf h with
  | Ptr bp _, Ptr bf _ => set_heap (delete bf (delete bp (heap s))) s
  | _, _ => s
  end.

(** What [sptr_alloc(T, e)] returns in [s], and the state it leaves, when
    both requests are satisfied: the buffer is the block [next s], the flag
    cell the one after it. *)
Definition fresh_handle (e : text) (s : state val) : sptr :=
  Sptr (Ptr (next s) 0) (to_size_t (count e)) (Ptr (Pos.succ (next s)) 0).

Definition with_fresh (T : ctype) (e : text) (s : state val) : state val :=
  State (<[Pos.succ (next s) := Blk 1 {[0 := Cell 1 (Vint 0)]}]>
           (<[next s := Blk (to_size_t (pasted (sizeof T) e)) ∅]> (heap s)))
        (Pos.succ (Pos.succ (next s))) (drop 2 (script s))
        (locals s) (stderr s).

(** One statement of a trace, expanded at [at_]; what it reads is what it
    returns. *)
Definition step (at_ : site) (o : op) : M val (list Z) :=
  match o with
  | Alloc x T n => h ← sptr_alloc at_ T (Prim n); set_local x (Vsptr h);; mret []
  | Copy x y => v ← get_local y; set_local x v;; mret []
  | Put T x i v => l ← sptr_at at_ T (var x) i; wr T l (elem T v);; mret []
  | Get T x i => l ← sptr_at at_ T (var x) i; v ← rd T l; z ← as_num v; mret [z]
  | PutRow x i y => l ← sptr_at at_ Tsptr (var x) i; h ← var y; wr Tsptr l (Vsptr h);; mret []
  | GetRow y x i => h ← row at_ (var x) i; set_local y (Vsptr h);; mret []
  | PutMat T x i j v => l ← sptr_mat at_ T (var x) i j; wr T l (elem T v);; mret []
  | GetMat T x i j =>
      l ← sptr_mat at_ T (var x) i j; v ← rd T l; z ← as_num v; mret [z]
  | Free x => sptr_free at_ (var x);; mret []
  end.

(** A trace, its first statement on line [k]. *)
Fixpoint run (k : Z) (tr : list op) : M val (list Z) :=
  match tr with
  | [] => mret []
  | o :: tr' => a ← step (here k) o; b ← run (k + 1) tr'; mret (a ++ b)
  end.

End Checked.

(** ** Release mode ([RELEASE_MODE] defined) *)

Module ReleaseMode.

(** [typedef struct { void* ptr; int size;} sptr;] *)
Record sptr : Type := Sptr { ptr : pointer; size : Z }.

Inductive val : Type :=
| Vint (z : Z)
| Vsptr (h : sptr)
| Vstruct (bytes : positive) (contents : Z).

Definition sizeof (T : ctype) : Z :=
  match T with
  | Tchar => 1
  | Tint => 4
  | Tlong => 8
  | Tsptr => 16
  | Tstruct n => Z.pos n
  end.

Definition as_int (v : val) : M val Z :=
  match v with Vint z => mret z | _ => undef end.

Definition as_sptr (v : val) : M val sptr :=
  match v with Vsptr h => mret h | _ => undef end.

Definition as_num (v : val) : M val Z :=
  match v with Vint z => mret z | Vstruct _ d => mret d | Vsptr _ => undef end.

Definition elem (T : ctype) (z : Z) : val :=
  match T with Tstruct n => Vstruct n z | _ => Vint z end.

Definition convert (T : ctype) (v : val) : option val :=
  match T, v with
  | Tchar, Vint z => Some (Vint (to_char z))
  | Tint, Vint z => Some (Vint (to_int z))
  | Tlong, Vint z => Some (Vint (to_long z))
  | Tsptr, Vsptr h => Some (Vsptr h)
  | Tstruct n, Vstruct m d => if decide (n = m) then Some (Vstruct m d) else None
  | _, _ => None
  end.

Global Instance sptr_eq_dec : EqDecision sptr.
Proof. solve_decision. Defined.
Global Instance val_eq_dec : EqDecision val.
Proof. solve_decision. Defined.

Definition has_type (T : ctype) (v : val) : bool :=
  bool_decide (convert T v = Some v).

(** [sptr_alloc(type, size)] is [((sptr){malloc(sizeof(type)*size),size})]:
    the text of [size] is pasted after [sizeof(type)*]; the field is the
    value of [size], converted to [int]. *)
Definition sptr_alloc (type : ctype) (size : text) : M val sptr :=
  p ← malloc (to_size_t (pasted (sizeof type) size));
  mret (Sptr p (to_int (count size))).

(** [sptr_at(type, sp, ind)] is [(*(((type*)sp.ptr)+ind))]; as in checked
    mode, the pointer to the element. *)
Definition sptr_at (type : ctype) (sp : M val sptr) (ind : Z) : M val pointer :=
  h ← sp; mret (ptr_add (ptr h) (ind * sizeof type)).

(** [sptr_free(sp)] is [free(sp.ptr)] *)
Definition sptr_free (sp : M val sptr) : M val unit :=
  h ← sp; free (ptr h).

Definition rd (type : ctype) (l : pointer) : M val val :=
  v ← load (sizeof type) l;
  if has_type type v then mret v else undef.

Definition wr (type : ctype) (l : pointer) (v : val) : M val unit :=
  match convert type v with
  | Some w => store (sizeof type) l w
  | None => undef
  end.

Definition row (sp : M val sptr) (i : Z) : M val sptr :=
  l ← sptr_at Tsptr sp i; v ← rd Tsptr l; as_sptr v.

Definition sptr_mat (type : ctype) (sp : M val sptr) (i j : Z) : M val pointer :=
  sptr_at type (row sp i) j.

Definition var (x : string) : M val sptr := get_local x ≫= as_sptr.

Definition step (o : op) : M val (list Z) :=
  match o with
  | Alloc x T n => h ← sptr_alloc T (Prim n); set_local x (Vsptr h);; mret []
  | Copy x y => v ← get_local y; set_local x v;; mret []
  | Put T x i v => l ← sptr_at T (var x) i; wr T l (elem T v);; mret []
  | Get T x i => l ← sptr_at T (var x) i; v ← rd T l; z ← as_num v; mret [z]
  | PutRow x i y => l ← sptr_at Tsptr (var x) i; h ← var y; wr Tsptr l (Vsptr h);; mret []
  | GetRow y x i => h ← row (var x) i; set_local y (Vsptr h);; mret []
  | PutMat T x i j v => l ← sptr_mat T (var x) i j; wr T l (elem T v);; mret []
  | GetMat T x i j => l ← sptr_mat T (var x) i j; v ← rd T l; z ← as_num v; mret [z]
  | Free x => sptr_free (var x);; mret []
  end.

Fixpoint run (tr : list op) : M val (list Z) :=
  match tr with
  | [] => mret []
  | o :: tr' => a ← step o; b ← run tr'; mret (a ++ b)
  end.

End ReleaseMode.

(** ** The two builds side by side *)

(** A trace uses each buffer as what it was allocated for: a buffer that
    [sptr_alloc(sptr, n)] returned holds handles and is accessed at type
    [sptr] only, a buffer allocated at another type is never accessed at
    type [sptr].  [K] gives the kind of each buffer allocated so far, by
    its block. *)
Definition buffer_kind (K : gmap block kind) (sp : M Checked.val Checked.sptr)
    (s : state Checked.val) : option kind :=
  match sp s with
  | Ret h _ => match Checked.ptr h with Ptr b _ => K !! b | Null => None end
  | _ => None
  end.

(** What a statement expanded at [at_] needs in [s].  A buffer of handles
    is requested with a count whose size in bytes does not wrap. *)
Definition fits (K : gmap block kind) (at_ : site) (o : op)
    (s : state Checked.val) : bool :=
  match o with
  | Alloc _ T n => plain T || bool_decide (0 <= n /\ 24 * n < 2 ^ 64)
  | Copy _ _ | Free _ => true
  | Put T x _ _ | Get T x _ =>
      plain T && bool_decide (buffer_kind K (Checked.var x) s = Some KBytes)
  | PutRow x _ _ | GetRow _ x _ =>
      bool_decide (buffer_kind K (Checked.var x) s = Some KRows)
  | PutMat T x i _ _ | GetMat T x i _ =>
      plain T && bool_decide (buffer_kind K (Checked.var x) s = Some KRows) &&
      bool_decide
        (buffer_kind K (Checked.row at_ (Checked.var x) i) s = Some KBytes)
  end.

(** The kinds once the statement has run: an allocation takes the block
    [next s] for its buffer. *)
Definition kinds_after (K : gmap block kind) (o : op) (s : state Checked.val)
    : gmap block kind :=
  match o with
  | Alloc _ T _ => <[next s := kind_of T]> K
  | _ => K
  end.

Fixpoint as_allocated (k : Z) (K : gmap block kind) (tr : list op)
    (s : state Checked.val) : bool :=
  match tr with
  | [] => true
  | o :: tr' =>
      fits K (here k) o s &&
      as_allocated (k + 1) (kinds_after K o s) tr' (final (Checked.step (here k) o) s)
  end.

(** Two handles agree under [φ], at kind [k], when [φ] pairs the buffer of
    the first with the buffer of the second and gives the pair the kind
    [k]; the flag cell of the first is the block allocated right after its
    buffer; the count of the second is the count of the first, converted
    to [int]. *)
Definition handle_agree (φ : gmap block (block * kind)) (k : kind)
    (hc : Checked.sptr) (hr : ReleaseMode.sptr) : Prop :=
  exists bc br,
    Checked.ptr hc = Ptr bc 0 /\ Checked.isf hc = Ptr (Pos.succ bc) 0 /\
    ReleaseMode.ptr hr = Ptr br 0 /\ φ !! bc = Some (br, k) /\
    ReleaseMode.size hr = to_int (Checked.size hc).

(** Two elements of plain types agree when they are the same integer or
    the same struct. *)
Definition plain_agree (c : Checked.val) (r : ReleaseMode.val) : Prop :=
  match c, r with
  | Checked.Vint a, ReleaseMode.Vint b => a = b
  | Checked.Vstruct n a, ReleaseMode.Vstruct m b => n = m /\ a = b
  | _, _ => False
  end.

(** At an offset of two plain buffers: nothing on both sides, or objects
    of the same size that agree. *)
Definition cell_agree (c : option (cell Checked.val))
    (r : option (cell ReleaseMode.val)) : Prop :=
  match c, r with
  | None, None => True
  | Some c, Some r => csize c = csize r /\ plain_agree (cval c) (cval r)
  | _, _ => False
  end.

(** At a row of two buffers of handles: nothing on both sides, or a
    handle of each build, and the two agree. *)
Definition row_agree (φ : gmap block (block * kind))
    (c : option (cell Checked.val)) (r : option (cell ReleaseMode.val)) : Prop :=
  match c, r with
  | None, None => True
  | Some c, Some r =>
      csize c = 24 /\ csize r = 16 /\
      match cval c, cval r with
      | Checked.Vsptr hc, ReleaseMode.Vsptr hr => exists k, handle_agree φ k hc hr
      | _, _ => False
      end
  | _, _ => False
  end.

(** Two buffers agree: plain ones have the same size and agree offset by
    offset; buffers of [n] handles have the sizes of [n] handles of their
    build, agree row by row and hold nothing between the rows. *)
Definition blk_agree (φ : gmap block (block * kind)) (k : kind)
    (kc : blk Checked.val) (kr : blk ReleaseMode.val) : Prop :=
  match k with
  | KBytes =>
      bsize kc = bsize kr /\ forall o, cell_agree (bcont kc !! o) (bcont kr !! o)
  | KRows =>
      exists n, 0 <= n /\ bsize kc = 24 * n /\ bsize kr = 16 * n /\
        (forall i, row_agree φ (bcont kc !! (i * 24)) (bcont kr !! (i * 16))) /\
        (forall o, o mod 24 ≠ 0 -> bcont kc !! o = None) /\
        (forall o, o mod 16 ≠ 0 -> bcont kr !! o = None)
  end.

Definition local_agree (φ : gmap block (block * kind))
    (c : option Checked.val) (r : option ReleaseMode.val) : Prop :=
  match c, r with
  | None, None => True
  | Some (Checked.Vsptr hc), Some (ReleaseMode.Vsptr hr) =>
      exists k, handle_agree φ k hc hr
  | _, _ => False
  end.

(** A state of the checked build and a state of the release build that the
    same trace can have led to.  [φ] pairs the buffers allocated so far.
    Each pair is either live on both sides, with buffers that agree and a
    clear flag on the checked side, or released on both sides.  The
    variables hold handles that agree, the same lines have been printed,
    and the allocator of the release build refuses nothing. *)
Record related (φ : gmap block (block * kind))
    (sc : state Checked.val) (sr : state ReleaseMode.val) : Prop := Related {
  rel_script_r : forallb id (script sr) = true;
  rel_stderr : stderr sr = stderr sc;
  rel_fresh_c : forall b, is_Some (heap sc !! b) -> (b < next sc)%positive;
  rel_fresh_r : forall b, is_Some (heap sr !! b) -> (b < next sr)%positive;
  rel_dom : forall bc br k, φ !! bc = Some (br, k) ->
    (Pos.succ bc < next sc)%positive /\ (br < next sr)%positive;
  rel_inj : forall b1 b2 br k1 k2,
    φ !! b1 = Some (br, k1) -> φ !! b2 = Some (br, k2) -> b1 = b2;
  rel_sep : forall b1 b2, is_Some (φ !! b1) -> is_Some (φ !! b2) -> b2 ≠ Pos.succ b1;
  rel_blocks : forall bc br k, φ !! bc = Some (br, k) ->
    (exists kc kr,
       heap sc !! bc = Some kc /\ heap sr !! br = Some kr /\ blk_agree φ k kc kr /\
       heap sc !! Pos.succ bc = Some (Blk 1 {[0 := Cell 1 (Checked.Vint 0)]})) \/
    (heap sc !! bc = None /\ heap sc !! Pos.succ bc = None /\ heap sr !! br = None);
  rel_locals : forall x, local_agree φ (locals sc !! x) (locals sr !! x)
}.

(** ** Programs used as examples *)

Module Demo.
Import Checked.

(** [sptr h1 = sptr_alloc(int, 10); sptr h2 = h1;] *)
Definition two_names : M val unit :=
  h ← sptr_alloc (here 3) Tint (Prim 10);
  set_local "h1" (Vsptr h);;
  v ← get_local "h1";
  set_local "h2" v.

Definition h_two : sptr := fresh_handle (Prim 10) (init []).
Definition s_two : state val := final two_names (init []).

(** A matrix of three rows with 3, 1 and 5 columns:
    [sptr m = sptr_alloc(sptr, 3);]
    [sptr_at(sptr, m, 0) = sptr_alloc(int, 3);] and so on. *)
Definition jagged : M val sptr :=
  m ← sptr_alloc (here 1) Tsptr (Prim 3);
  r0 ← sptr_alloc (here 2) Tint (Prim 3);
  l0 ← sptr_at (here 2) Tsptr (mret m) 0; wr Tsptr l0 (Vsptr r0);;
  r1 ← sptr_alloc (here 3) Tint (Prim 1);
  l1 ← sptr_at (here 3) Tsptr (mret m) 1; wr Tsptr l1 (Vsptr r1);;
  r2 ← sptr_alloc (here 4) Tint (Prim 5);
  l2 ← sptr_at (here 4) Tsptr (mret m) 2; wr Tsptr l2 (Vsptr r2);;
  mret m.

(** The scenario of the header's usage comment, with a copy of the
    handle and two elements. *)
Definition scenario : list op :=
  [ Alloc "a" Tint 10;
    Put Tint "a" 5 42;
    Copy "b" "a";
    Put Tint "b" 0 7;
    Get Tint "b" 5;
    Get Tint "a" 0;
    Free "a" ].

(** A matrix of two rows, of 3 and 1 columns, filled, read and taken
    apart. *)
Definition matrix_scenario : list op :=
  [ Alloc "m" Tsptr 2;
    Alloc "r" Tint 3;
    PutRow "m" 0 "r";
    Alloc "r" Tint 1;
    PutRow "m" 1 "r";
    PutMat Tint "m" 0 2 11;
    PutMat Tint "m" 1 0 12;
    GetMat Tint "m" 0 2;
    GetRow "q" "m" 1;
    Get Tint "q" 0;
    Free "q";
    GetRow "q" "m" 0;
    Free "q";
    Free "m" ].

(** A matrix of matrices: the rows of [c] are matrices, whose rows are
    buffers of [int]; an element is reached through the rows fetched one
    after the other, and a struct is stored in a buffer of its own. *)
Definition nested : list op :=
  [ Alloc "c" Tsptr 2;
    Alloc "m" Tsptr 2;
    PutRow "c" 0 "m";
    Alloc "r" Tint 3;
    PutRow "m" 1 "r";
    GetRow "q" "c" 0;
    PutMat Tint "q" 1 2 33;
    GetMat Tint "q" 1 2;
    GetRow "p" "q" 1;
    Put Tchar "p" 0 300;
    Get Tchar "p" 0;
    Alloc "s" (Tstruct 24) 2;
    Put (Tstruct 24) "s" 1 5;
    Get (Tstruct 24) "s" 1;
    Free "p";
    Free "q";
    Free "c" ].

(** A buffer allocated for one handle and used for a struct of 24
    bytes. *)
Definition misused : list op :=
  [ Alloc "m" Tsptr 1;
    Put (Tstruct 24) "m" 0 5;
    Get (Tstruct 24) "m" 0 ].

End Demo.

(** ** Vocabulary of the further properties *)

Section MoreVocabulary.
Import Checked.

(** What a checked macro may print: nothing when it returns; when it
    exits, the status is 1 and one line was added, for the expansion at
    [at_] and with one of the four messages. *)
Definition quiet_or_located {A} (at_ : site) (s : state val)
    (o : outcome val A) : Prop :=
  match o with
  | Ret _ s' => stderr s' = stderr s
  | Exit c s' =>
      c = 1 /\
      exists e, stderr s' = stderr s ++ [Diag (s_file at_) (s_line at_) (message e)]
  | Undef => True
  end.

(** The flag cell of [h] is allocated and holds zero, wherever in its
    block the flag pointer points. *)
Definition flag_zero (h : sptr) (s : state val) : bool :=
  match isf h with
  | Ptr bf o =>
      match heap s !! bf with
      | Some kf =>
          bool_decide (0 <= o /\ o + 1 <= bsize kf) &&
          match bcont kf !! o with
          | Some (Cell 1 (Vint c)) => bool_decide (c = 0)
          | _ => false
          end
      | None => false
      end
  | Null => false
  end.

(** Every allocated block was named before [next]: [malloc] has not
    handed out the names it will use from now on. *)
Definition names_fresh (s : state val) : bool :=
  bool_decide (map_Forall (fun b _ => (b < next s)%positive) (heap s)).

(** [h] and [g] share no block that a write through [h] could reach: the
    buffer of [h] is neither the buffer nor the flag cell of [g]. *)
Definition apart (h g : sptr) : bool :=
  bool_decide (block_of (ptr h) ≠ block_of (ptr g) /\
               block_of (ptr h) ≠ block_of (isf g)).

(** Element [i] of the buffer of rows [m] holds the handle [r]. *)
Definition holds_row (m : sptr) (i : Z) (r : sptr) (s : state val) : bool :=
  bool_decide (value (rd Tsptr (ptr_add (ptr m) (i * sizeof Tsptr)) s) = Some (Vsptr r)).

(** [h] and [g] have no block in common. *)
Definition separate (h g : sptr) : bool :=
  bool_decide (block_of (ptr h) ≠ block_of (ptr g) /\
               block_of (ptr h) ≠ block_of (isf g) /\
               block_of (isf h) ≠ block_of (ptr g) /\
               block_of (isf h) ≠ block_of (isf g)).

(** The state after a write of the object [v] of type [T] at element [i]
    of a live handle: the buffer of [h] holds [v] there, and the objects
    [v] does not overlap are as they were. *)
Definition written (T : ctype) (h : sptr) (i : Z) (v : val) (s : state val)
    : state val :=
  match ptr h with
  | Ptr bp _ =>
      match heap s !! bp with
      | Some kp =>
          set_heap (<[bp := put (i * sizeof T) (sizeof T) v kp]> (heap s)) s
      | None => s
      end
  | Null => s
  end.

(** [s'] has the block [p] points into exactly as [s] has it. *)
Definition agree_at (p : pointer) (s s' : state val) : Prop :=
  forall b, block_of p = Some b -> heap s' !! b = heap s !! b.

End MoreVocabulary.

(** ** More programs used as examples *)

Module Samples.
Import Checked.

(** [sptr a = sptr_alloc(int, 4); sptr b = sptr_alloc(int, 2);]
    [sptr_at(int, b, 1) = 9;] *)
Definition two_buffers : M val (sptr * sptr) :=
  a ← sptr_alloc (here 1) Tint (Prim 4);
  b ← sptr_alloc (here 2) Tint (Prim 2);
  l ← sptr_at (here 3) Tint (mret b) 1; wr Tint l (Vint 9);;
  mret (a, b).

Definition h_a : sptr := fresh_handle (Prim 4) (init []).
Definition h_b : sptr := fresh_handle (Prim 2) (with_fresh Tint (Prim 4) (init [])).
Definition s_ab : state val := final two_buffers (init []).

(** The matrix of [Demo.jagged], its state and its second row. *)
Definition h_m : sptr := fresh_handle (Prim 3) (init []).
Definition s_m : state val := final Demo.jagged (init []).
Definition h_r1 : sptr :=
  match row (here 9) (mret h_m) 1 s_m with
  | Ret r _ => r
  | _ => Sptr Null 0 Null
  end.

End Samples.

(** ** Vocabulary of the release build *)

(** In the release build, [h] points to the start of an allocated block of
    exactly [n] elements of type [T]. *)
Definition owns (T : ctype) (n : Z) (h : ReleaseMode.sptr)
    (s : state ReleaseMode.val) : bool :=
  match ReleaseMode.ptr h with
  | Ptr b o =>
      match heap s !! b with
      | Some k => bool_decide (o = 0 /\ 0 <= n /\ bsize k = ReleaseMode.sizeof T * n)
      | None => false
      end
  | Null => false
  end.

(** [sptr_at(T, h, i) = v;] and [sptr_at(T, h, i)] read, in the release
    build. *)
Definition release_put (T : ctype) (h : ReleaseMode.sptr) (i : Z)
    (v : ReleaseMode.val) : M ReleaseMode.val unit :=
  l ← ReleaseMode.sptr_at T (mret h) i; ReleaseMode.wr T l v.

Definition release_get (T : ctype) (h : ReleaseMode.sptr) (i : Z)
    : M ReleaseMode.val ReleaseMode.val :=
  l ← ReleaseMode.sptr_at T (mret h) i; ReleaseMode.rd T l.

Module ReleaseSamples.
Import ReleaseMode.

(** [sptr a = sptr_alloc(int, 4);] in the release build. *)
Definition h_a : sptr := Sptr (Ptr 1 0) 4.
Definition s_a : state val := final (sptr_alloc Tint (Prim 4)) (init []).

End ReleaseSamples.

(** ** Reasoning about computations *)

Ltac munfold :=
  unfold mbind, M_bind, bind, mret, M_ret, ret, exit, eprintf, undef in *.

Lemma mbind_unfold {V A B} (m : M V A) (k : A -> M V B) s :
  (m ≫= k) s =
  match m s with
  | Ret a s' => k a s'
  | Exit c s' => Exit c s'
  | Undef => Undef
  end.
Proof. reflexivity. Qed.

Lemma mret_unfold {V A} (a : A) (s : state V) : (mret a : M V A) s = Ret a s.
Proof. reflexivity. Qed.

Lemma mbind_ret {V A B} (m : M V A) (k : A -> M V B) s a s' :
  m s = Ret a s' -> (m ≫= k) s = k a s'.
Proof. intros E. by rewrite mbind_unfold, E. Qed.

Lemma malloc_granted {V} sz (s : state V) :
  grants 1 (script s) = true ->
  malloc sz s = Ret (Ptr (next s) 0)
    (State (<[next s := Blk sz ∅]> (heap s)) (Pos.succ (next s))
           (tail (script s)) (locals s) (stderr s)).
Proof.
  unfold malloc, grants. destruct (script s) as [|[] rest]; simpl; try done.
Qed.

Lemma malloc_refused {V} sz (s : state V) rest :
  script s = false :: rest ->
  malloc sz s = Ret Null (State (heap s) (next s) rest (locals s) (stderr s)).
Proof. unfold malloc. intros ->. done. Qed.

Lemma load_reads_only {V} sz p : reads_only (@load V sz p).
Proof.
  intros s a s'. unfold load. destruct p as [|b o]; [done|].
  destruct (heap s !! b) as [k|]; [|done].
  destruct (bool_decide _); [|done].
  destruct (bcont k !! o); [|done]. destruct (decide _); [|done].
  by intros [= _ ->].
Qed.

(** ** Objects in a block *)

Lemma clear_of_empty {V} o sz : clear_of o sz (∅ : gmap Z (cell V)) = ∅.
Proof. apply map_filter_empty. Qed.

Lemma put_empty {V} o sz (v : V) n :
  put o sz v (Blk n ∅) = Blk n {[o := Cell sz v]}.
Proof. unfold put. simpl. by rewrite clear_of_empty, insert_empty. Qed.

Lemma put_lookup {V} o sz (v : V) k :
  bcont (put o sz v k) !! o = Some (Cell sz v).
Proof. apply lookup_insert_eq. Qed.

Lemma load_object {V} sz b o (s : state V) k :
  heap s !! b = Some k -> 0 <= o -> o + sz <= bsize k ->
  value (load sz (Ptr b o) s) = object_at sz k o.
Proof.
  intros H ? ?. unfold load, object_at. rewrite H.
  rewrite bool_decide_eq_true_2 by done.
  destruct (bcont k !! o) as [c|]; simpl; [|done]. by destruct (decide _).
Qed.

Lemma put_lookup_ne {V} o sz (v : V) k o' :
  o' ≠ o ->
  bcont (put o sz v k) !! o' =
    match bcont k !! o' with
    | Some c => if decide (o' + csize c <= o \/ o + sz <= o') then Some c else None
    | None => None
    end.
Proof.
  intros Hne. unfold put. simpl. rewrite lookup_insert_ne by done.
  unfold clear_of. rewrite map_lookup_filter.
  destruct (bcont k !! o') as [c|]; simpl; [|done].
  case_guard as G; simpl in *;
    destruct (decide (o' + csize c <= o \/ o + sz <= o')); done.
Qed.

(** A write leaves the objects of its size that it does not overlap. *)
Lemma object_at_put {V} o sz (v : V) k o' :
  o' + sz <= o \/ o + sz <= o' -> 0 < sz ->
  object_at sz (put o sz v k) o' = object_at sz k o'.
Proof.
  intros Hd Hsz. unfold object_at, put. simpl.
  rewrite lookup_insert_ne by lia. unfold clear_of. rewrite map_lookup_filter.
  destruct (bcont k !! o') as [c|]; simpl; [|done].
  case_guard as G; simpl; [done|].
  destruct (decide (csize c = sz)) as [E|]; [|done].
  exfalso. apply G. simpl. lia.
Qed.

Lemma mret_reads_only {V A} (a : A) : reads_only (mret a : M V A).
Proof. intros s a' s'. munfold. by intros [= _ ->]. Qed.

Lemma bind_reads_only {V A B} (m : M V A) (k : A -> M V B) :
  reads_only m -> (forall a, reads_only (k a)) -> reads_only (m ≫= k).
Proof.
  intros Hm Hk s b s'. munfold. destruct (m s) as [a s1| |] eqn:E; try done.
  apply Hm in E as ->. apply Hk.
Qed.

Module CheckedFacts.
Import Checked.

Lemma as_sptr_reads_only v : reads_only (as_sptr v).
Proof. destruct v; intros s a s'; simpl; munfold; try done. by intros [= _ ->]. Qed.

Lemma as_int_reads_only v : reads_only (as_int v).
Proof. destruct v; intros s a s'; simpl; munfold; try done. by intros [= _ ->]. Qed.

Lemma var_reads_only x : reads_only (var x).
Proof.
  apply bind_reads_only; [|apply as_sptr_reads_only].
  intros s a s'. unfold get_local. destruct (locals s !! x); [|done].
  by intros [= _ ->].
Qed.

(** The flag test on an expression that evaluates to [h] is the flag test
    on [h]. *)
Lemma flag_test_value (sp : M val sptr) h s :
  sp s = Ret h s -> flag_test sp s = flag_test (mret h) s.
Proof.
  intros E. unfold flag_test.
  rewrite (mbind_ret sp _ s h s E), (mbind_ret (mret h) _ s h s eq_refl).
  rewrite !mbind_unfold.
  destruct (load 1 (isf h) s) as [v s1| |] eqn:L; try done.
  apply load_reads_only in L as ->.
  destruct (as_int v s) as [c s1| |] eqn:C; try done.
  apply as_int_reads_only in C as ->.
  destruct (bool_decide (c ≠ 0)); [done|].
  by rewrite (mbind_ret sp _ s h s E).
Qed.

Lemma flag_test_reads_only h : reads_only (flag_test (mret h)).
Proof.
  unfold flag_test. apply bind_reads_only; [apply mret_reads_only|].
  intros h1. apply bind_reads_only.
  { apply bind_reads_only; [apply load_reads_only|apply as_int_reads_only]. }
  intros c. destruct (bool_decide _); [apply mret_reads_only|].
  apply bind_reads_only; [apply mret_reads_only|]. intros ?. apply mret_reads_only.
Qed.

(** Call by name against call by value: on an argument that evaluates to
    [h] without changing the state, the macros do what they do on [h]. *)
Lemma sptr_at_value at_ T (sp : M val sptr) h i s :
  sp s = Ret h s -> sptr_at at_ T sp i s = sptr_at at_ T (mret h) i s.
Proof.
  intros E. unfold sptr_at.
  rewrite (mbind_ret sp _ s h s E), (mbind_ret (mret h) _ s h s eq_refl).
  destruct (orb _ _); [done|].
  rewrite !mbind_unfold, (flag_test_value sp h s E).
  destruct (flag_test (mret h) s) as [d s1| |] eqn:F; try done.
  apply flag_test_reads_only in F as ->.
  destruct d; [done|]. by rewrite (mbind_ret sp _ s h s E).
Qed.

Lemma sptr_alloc_ok at_ T e (s : state val) :
  grants 2 (script s) = true ->
  sptr_alloc at_ T e s = Ret (fresh_handle e s) (with_fresh T e s).
Proof.
  intros G. unfold sptr_alloc.
  assert (G1 : grants 1 (script s) = true).
  { revert G. unfold grants. destruct (script s) as [|[] [|[] r]]; simpl; done. }
  rewrite (mbind_ret _ _ _ _ _ (malloc_granted _ s G1)).
  erewrite mbind_ret; cycle 1.
  { apply malloc_granted; simpl.
    revert G. unfold grants. destruct (script s) as [|[] [|[] r]]; simpl; done. }
  rewrite mbind_unfold. unfold store; simpl. rewrite lookup_insert_eq. simpl.
  unfold set_heap; simpl. rewrite insert_insert_eq, put_empty.
  rewrite mret_unfold. unfold fresh_handle, with_fresh.
  do 3 f_equal. destruct (script s) as [|? [|? ?]]; done.
Qed.

Lemma fresh_flag_clear T e s : flag_clear (fresh_handle e s) (with_fresh T e s) = true.
Proof.
  unfold flag_clear; simpl. rewrite lookup_insert_eq.
  by apply bool_decide_eq_true_2.
Qed.

Lemma fresh_buffer T e s :
  buffer_of (fresh_handle e s) (with_fresh T e s)
  = Some (Blk (to_size_t (pasted (sizeof T) e)) ∅).
Proof.
  unfold buffer_of; simpl. rewrite decide_True.
  2:{ split; [done|]. intros [= E]. lia. }
  rewrite lookup_insert_ne by lia. apply lookup_insert_eq.
Qed.

Lemma fresh_releasable T e s : releasable (fresh_handle e s) (with_fresh T e s) = true.
Proof. unfold releasable. by rewrite fresh_flag_clear, fresh_buffer. Qed.

Lemma sizeof_pos T : 0 < sizeof T.
Proof. destruct T; simpl; lia. Qed.


Lemma flag_clear_load h s :
  flag_clear h s = true -> load 1 (isf h) s = Ret (Vint 0) s.
Proof.
  unfold flag_clear, load. destruct (isf h) as [|bf o]; [done|].
  destruct (heap s !! bf) as [kf|]; [|done].
  intros (-> & ? & ->)%bool_decide_eq_true.
  rewrite bool_decide_eq_true_2 by lia. by rewrite decide_True.
Qed.

Lemma flag_clear_test h s :
  flag_clear h s = true -> flag_test (mret h) s = Ret false s.
Proof.
  intros F. unfold flag_test.
  rewrite (mbind_ret (mret h) _ s h s eq_refl).
  erewrite mbind_ret; cycle 1.
  { erewrite mbind_ret; [|by apply flag_clear_load]. reflexivity. }
  simpl. rewrite (mbind_ret (mret h) _ s h s eq_refl), mret_unfold.
  unfold flag_clear in F. by destruct (isf h).
Qed.

(** The bounds test of [sptr_at] is exact on every index a C integer can
    hold. *)
Lemma bounds_test (sz i : Z) :
  i < 2 ^ 64 ->
  (sz <=? to_size_t i) || (i <? 0) = negb (bool_decide (0 <= i < sz)).
Proof.
  intros Hi. unfold to_size_t. destruct (Z.ltb_spec i 0) as [Hn|Hn].
  - rewrite orb_true_r, bool_decide_eq_false_2; [done|lia].
  - rewrite orb_false_r, Z.mod_small by lia.
    destruct (Z.leb_spec sz i).
    + rewrite bool_decide_eq_false_2; [done|lia].
    + rewrite bool_decide_eq_true_2; [done|lia].
Qed.

Lemma sptr_at_out_of_range at_ T h i s :
  i < 2 ^ 64 -> ~ (0 <= i < size h) ->
  fails_with at_ IndexOutOfRange s (sptr_at at_ T (mret h) i s).
Proof.
  intros Hi Hr. unfold fails_with, sptr_at.
  rewrite (mbind_ret (mret h) _ s h s eq_refl).
  rewrite bounds_test, bool_decide_eq_false_2 by done. reflexivity.
Qed.

Lemma sptr_at_in_range at_ T h i s :
  flag_clear h s = true -> 0 <= i < size h -> i < 2 ^ 64 ->
  sptr_at at_ T (mret h) i s = Ret (ptr_add (ptr h) (i * sizeof T)) s.
Proof.
  intros F Hr Hi. unfold sptr_at.
  rewrite (mbind_ret (mret h) _ s h s eq_refl).
  rewrite bounds_test, bool_decide_eq_true_2 by done. simpl.
  rewrite (mbind_ret _ _ _ _ _ (flag_clear_test h s F)).
  by rewrite (mbind_ret (mret h) _ s h s eq_refl).
Qed.
Lemma flag_clear_inv h s :
  flag_clear h s = true ->
  exists bf kf, isf h = Ptr bf 0 /\ heap s !! bf = Some kf /\
    1 <= bsize kf /\ bcont kf !! 0 = Some (Cell 1 (Vint 0)).
Proof.
  unfold flag_clear. destruct (isf h) as [|bf o]; [done|].
  destruct (heap s !! bf) as [kf|] eqn:Hf; [|done].
  intros (-> & ? & ?)%bool_decide_eq_true. by exists bf, kf.
Qed.

Lemma buffer_of_inv h s kp :
  buffer_of h s = Some kp ->
  exists bp, ptr h = Ptr bp 0 /\ ptr h ≠ isf h /\ heap s !! bp = Some kp.
Proof.
  unfold buffer_of. destruct (ptr h) as [|bp o]; [done|].
  destruct (decide _) as [[-> ?]|]; [|done]. intros ?. by exists bp.
Qed.

Lemma releasable_inv h s :
  releasable h s = true ->
  exists bp bf kp kf,
    ptr h = Ptr bp 0 /\ isf h = Ptr bf 0 /\ bp ≠ bf /\
    heap s !! bp = Some kp /\ heap s !! bf = Some kf /\
    1 <= bsize kf /\ bcont kf !! 0 = Some (Cell 1 (Vint 0)).
Proof.
  unfold releasable. intros [F [kp B]%bool_decide_eq_true]%andb_true_iff.
  destruct (flag_clear_inv h s F) as (bf & kf & Ef & Hf & ? & ?).
  destruct (buffer_of_inv h s kp B) as (bp & Ep & Hne & Hp).
  exists bp, bf, kp, kf. split_and!; try done.
  intros ->. by rewrite Ep, Ef in Hne.
Qed.

Lemma live_handle_inv T h s :
  live_handle T h s = true ->
  exists bp bf kp kf,
    ptr h = Ptr bp 0 /\ isf h = Ptr bf 0 /\ bp ≠ bf /\
    heap s !! bp = Some kp /\ heap s !! bf = Some kf /\
    size h * sizeof T <= bsize kp /\ 1 <= bsize kf /\
    bcont kf !! 0 = Some (Cell 1 (Vint 0)).
Proof.
  unfold live_handle. intros [F L]%andb_true_iff.
  destruct (buffer_of h s) as [kp|] eqn:B; [|done].
  apply bool_decide_eq_true in L.
  destruct (releasable_inv h s) as (bp & bf & kp' & kf & Ep & Ef & Hne & Hp & Hf & ? & ?).
  { unfold releasable. rewrite F, B. done. }
  destruct (buffer_of_inv h s kp B) as (bp' & Ep' & _ & Hp').
  rewrite Ep in Ep'. injection Ep' as <-. rewrite Hp in Hp'. injection Hp' as ->.
  by exists bp, bf, kp, kf.
Qed.

Lemma live_handle_releasable T h s : live_handle T h s = true -> releasable h s = true.
Proof.
  unfold live_handle, releasable. intros [-> L]%andb_true_iff. simpl.
  by destruct (buffer_of h s).
Qed.

Lemma releasable_flag_clear h s : releasable h s = true -> flag_clear h s = true.
Proof. unfold releasable. by intros [F _]%andb_true_iff. Qed.

Lemma live_handle_flag_clear T h s : live_handle T h s = true -> flag_clear h s = true.
Proof. unfold live_handle. by intros [F _]%andb_true_iff. Qed.

(** The flag test dereferences the flag pointer before anything else. *)
Lemma flag_test_null g s : isf g = Null -> flag_test (mret g) s = Undef.
Proof.
  intros E. unfold flag_test.
  rewrite (mbind_ret (mret g) _ s g s eq_refl), !mbind_unfold, E. done.
Qed.

Lemma flag_test_dangling g s b o :
  isf g = Ptr b o -> heap s !! b = None -> flag_test (mret g) s = Undef.
Proof.
  intros E H. unfold flag_test.
  rewrite (mbind_ret (mret g) _ s g s eq_refl), !mbind_unfold, E.
  unfold load. by rewrite H.
Qed.

Lemma sptr_at_flag_undef at_ T g i s :
  flag_test (mret g) s = Undef -> 0 <= i < size g -> i < 2 ^ 64 ->
  sptr_at at_ T (mret g) i s = Undef.
Proof.
  intros F Hr Hi. unfold sptr_at.
  rewrite (mbind_ret (mret g) _ s g s eq_refl).
  rewrite bounds_test, bool_decide_eq_true_2 by done. simpl.
  by rewrite mbind_unfold, F.
Qed.

Lemma sptr_free_flag_undef at_ g s :
  flag_test (mret g) s = Undef -> sptr_free at_ (mret g) s = Undef.
Proof. intros F. unfold sptr_free. by rewrite mbind_unfold, F. Qed.

(** Releasing a handle with a clear flag and a buffer of its own succeeds
    and removes both blocks. *)
Lemma sptr_free_releasable at_ h s :
  releasable h s = true ->
  sptr_free at_ (mret h) s = Ret tt (released h s).
Proof.
  intros L. pose proof (releasable_flag_clear _ _ L) as F.
  destruct (releasable_inv _ _ L) as (bp & bf & kp & kf & Ep & Ef & Hne & Hp & Hf & ? & _).
  unfold sptr_free, released.
  rewrite (mbind_ret _ _ _ _ _ (flag_clear_test h s F)).
  rewrite (mbind_ret (mret h) _ s h s eq_refl), Ep, Ef.
  rewrite mbind_unfold. unfold store. rewrite Hf.
  rewrite bool_decide_eq_true_2 by lia.
  rewrite (mbind_ret (mret h) _ _ h _ eq_refl), Ep.
  rewrite mbind_unfold. unfold free; simpl.
  rewrite lookup_insert_ne, Hp by done. simpl.
  rewrite (mbind_ret (mret h) _ _ h _ eq_refl), Ef. simpl.
  rewrite lookup_delete_ne, lookup_insert_eq by done. simpl.
  unfold set_heap; simpl.
  by rewrite delete_insert_ne, delete_insert_eq by done.
Qed.

Lemma released_flag_gone h s :
  releasable h s = true ->
  exists bf, isf h = Ptr bf 0 /\ heap (released h s) !! bf = None.
Proof.
  intros L.
  destruct (releasable_inv _ _ L) as (bp & bf & kp & kf & Ep & Ef & _).
  exists bf. split; [done|]. unfold released. rewrite Ep, Ef. simpl.
  apply lookup_delete_eq.
Qed.

(** A raised flag in an allocated cell is reported by both macros, and
    nothing but [stderr] changes. *)
Lemma flag_raised_test h s : flag_raised h s = true -> flag_test (mret h) s = Ret true s.
Proof.
  unfold flag_raised, flag_test. intros F.
  rewrite (mbind_ret (mret h) _ s h s eq_refl).
  destruct (isf h) as [|bf o]; [done|].
  rewrite !mbind_unfold. unfold load.
  destruct (heap s !! bf) as [kf|]; [|done].
  apply andb_true_iff in F as [-> F].
  destruct (bcont kf !! o) as [[sz [c| |]]|]; try done.
  all: assert (Hs : sz = 1) by (by destruct sz as [|[]|]); subst sz; try done.
  simpl. by rewrite F.
Qed.

Lemma sptr_free_flag_raised at_ h s :
  flag_raised h s = true -> fails_with at_ DoubleFree s (sptr_free at_ (mret h) s).
Proof.
  intros F. unfold fails_with, sptr_free.
  by rewrite (mbind_ret _ _ _ _ _ (flag_raised_test h s F)).
Qed.

Lemma sptr_at_flag_raised at_ T h i s :
  flag_raised h s = true -> 0 <= i < size h -> i < 2 ^ 64 ->
  fails_with at_ UseAfterFree s (sptr_at at_ T (mret h) i s).
Proof.
  intros F Hr Hi. unfold fails_with, sptr_at.
  rewrite (mbind_ret (mret h) _ s h s eq_refl).
  rewrite bounds_test, bool_decide_eq_true_2 by done. simpl.
  by rewrite (mbind_ret _ _ _ _ _ (flag_raised_test h s F)).
Qed.
(** [sptr_free] evaluates its argument again after it has written to the
    heap; an argument that depends on the variables only still evaluates
    to the same handle. *)
Lemma sptr_free_value at_ (sp : M val sptr) h s :
  (forall s', locals s' = locals s -> sp s' = Ret h s') ->
  sptr_free at_ sp s = sptr_free at_ (mret h) s.
Proof.
  intros E. unfold sptr_free.
  rewrite !mbind_unfold, (flag_test_value sp h s (E s eq_refl)).
  destruct (flag_test (mret h) s) as [d s1| |] eqn:F; try done.
  apply flag_test_reads_only in F as ->.
  destruct d; [done|].
  rewrite (mbind_ret sp _ s h s (E s eq_refl)), (mbind_ret (mret h) _ s h s eq_refl).
  rewrite !mbind_unfold.
  destruct (store 1 (isf h) (Vint 1) s) as [[] s1| |] eqn:S; try done.
  assert (L1 : locals s1 = locals s).
  { revert S. unfold store. destruct (isf h) as [|b o]; [done|].
    destruct (heap s !! b); [|done]. destruct (bool_decide _); [|done].
    by intros [= <-]. }
  rewrite (mbind_ret sp _ s1 h s1 (E s1 L1)), (mbind_ret (mret h) _ s1 h s1 eq_refl).
  rewrite !mbind_unfold.
  destruct (free (ptr h) s1) as [[] s2| |] eqn:R; try done.
  assert (L2 : locals s2 = locals s).
  { revert R. unfold free. destruct (ptr h) as [|b o]; [by intros [= <-]|].
    destruct (heap s1 !! b); [|done]. destruct (decide _); [|done].
    by intros [= <-]. }
  by rewrite (mbind_ret sp _ s2 h s2 (E s2 L2)), (mbind_ret (mret h) _ s2 h s2 eq_refl).
Qed.

Lemma var_value x h (s : state val) :
  locals s !! x = Some (Vsptr h) ->
  forall s', locals s' = locals s -> var x s' = Ret h s'.
Proof.
  intros H s' E. unfold var. rewrite mbind_unfold. unfold get_local.
  by rewrite E, H.
Qed.

(** A refused request for the flag cell goes unnoticed: the macro writes
    the initial flag through the pointer it got. *)
Lemma sptr_alloc_flag_refused at_ T e (s : state val) ok rest :
  script s = ok :: false :: rest -> sptr_alloc at_ T e s = Undef.
Proof.
  intros E. unfold sptr_alloc. rewrite mbind_unfold.
  unfold malloc at 1. rewrite E.
  destruct ok; simpl; rewrite mbind_unfold; unfold malloc; simpl; done.
Qed.

(** A refused request for the buffer is reported, after the flag cell has
    been allocated and initialised. *)
Lemma sptr_alloc_buffer_refused at_ T e (s : state val) rest :
  script s = false :: rest -> grants 1 rest = true ->
  sptr_alloc at_ T e s =
    Exit 1 (reported at_ AllocationFailure
              (State (<[next s := Blk 1 {[0 := Cell 1 (Vint 0)]}]> (heap s))
                     (Pos.succ (next s)) (tail rest) (locals s) (stderr s))).
Proof.
  intros E G. unfold sptr_alloc.
  rewrite (mbind_ret _ _ _ _ _ (malloc_refused _ s rest E)).
  erewrite mbind_ret; [|by apply malloc_granted].
  rewrite mbind_unfold. unfold store; simpl. rewrite lookup_insert_eq. simpl.
  unfold set_heap, reported; simpl. by rewrite insert_insert_eq, put_empty.
Qed.

(** When [sptr_alloc] returns, both requests were granted. *)
Lemma sptr_alloc_returns at_ T e (s : state val) h s' :
  sptr_alloc at_ T e s = Ret h s' -> h = fresh_handle e s /\ s' = with_fresh T e s.
Proof.
  destruct (script s) as [|[] [|[] rest]] eqn:E.
  - rewrite sptr_alloc_ok by (by rewrite E). by intros [= <- <-].
  - rewrite sptr_alloc_ok by (by rewrite E). by intros [= <- <-].
  - rewrite sptr_alloc_ok by (by rewrite E). by intros [= <- <-].
  - by rewrite (sptr_alloc_flag_refused at_ T e s true rest E).
  - by rewrite (sptr_alloc_buffer_refused at_ T e s [] E eq_refl).
  - by rewrite (sptr_alloc_buffer_refused at_ T e s (true :: rest) E eq_refl).
  - by rewrite (sptr_alloc_flag_refused at_ T e s false rest E).
Qed.
End CheckedFacts.
(** ** Allocation followed by access *)

Section AllocAccess.
Import Checked CheckedFacts.



End AllocAccess.

(** ** Release, and what follows it *)

Section AfterRelease.
Import Checked CheckedFacts.

(** C1 (the code does otherwise).  [x1] and [x2] hold the same handle.
    [sptr_free(x1)] succeeds and, as its last step, hands the flag cell
    back to the allocator; from then on [sptr_at(T, x2, i)] at an index in
    range and [sptr_free(x2)] read that cell, which is undefined: neither
    "use after free" nor "double free" is reported. *)
Theorem copy_after_release (at_ at' : site) (T : ctype) (x1 x2 : string)
    (h : sptr) (i : Z) (s : state val) :
  locals s !! x1 = Some (Vsptr h) ->
  locals s !! x2 = Some (Vsptr h) ->
  releasable h s = true ->
  0 <= i < size h -> i < 2 ^ 64 ->
  sptr_free at_ (var x1) s = Ret tt (released h s) /\
  sptr_at at' T (var x2) i (released h s) = Undef /\
  sptr_free at' (var x2) (released h s) = Undef.
Proof.
  intros H1 H2 L Hr Hi.
  assert (Hl : locals (released h s) = locals s).
  { unfold released. by destruct (ptr h), (isf h). }
  destruct (released_flag_gone h s L) as (bf & Ef & Hf).
  pose proof (flag_test_dangling h _ bf 0 Ef Hf) as Ft.
  split_and!.
  - rewrite (sptr_free_value at_ (var x1) h s (var_value x1 h s H1)).
    by apply sptr_free_releasable.
  - rewrite (sptr_at_value at' T (var x2) h i (released h s)
               (var_value x2 h s H2 _ Hl)).
    by apply sptr_at_flag_undef.
  - rewrite (sptr_free_value at' (var x2) h (released h s)).
    + by apply sptr_free_flag_undef.
    + intros s' E. apply (var_value x2 h s H2). by rewrite E.
Qed.

Lemma copy_after_release_witness :
  locals Demo.s_two !! "h1" = Some (Vsptr Demo.h_two) /\
  locals Demo.s_two !! "h2" = Some (Vsptr Demo.h_two) /\
  releasable Demo.h_two Demo.s_two = true /\
  0 <= 5 < size Demo.h_two /\ 5 < 2 ^ 64 /\
  sptr_free (here 5) (var "h1") Demo.s_two = Ret tt (released Demo.h_two Demo.s_two) /\
  sptr_at (here 6) Tint (var "h2") 5 (released Demo.h_two Demo.s_two) = Undef /\
  sptr_free (here 6) (var "h2") (released Demo.h_two Demo.s_two) = Undef.
Proof.
  split; [by vm_compute|]. split; [by vm_compute|]. split; [by vm_compute|].
  split; [by vm_compute|]. split; [lia|].
  apply (copy_after_release (here 5) (here 6) Tint "h1" "h2" Demo.h_two 5 Demo.s_two);
    by vm_compute.
Defined.

(** C2 (the code does otherwise).  On a handle whose flag pointer is
    [NULL], [sptr_free] dereferences the pointer before it compares it with
    [NULL], and so does [sptr_at] at an index in range: both are undefined
    and nothing is reported.  On the zero-valued handle every index is out
    of range, which is what [sptr_at] reports. *)
Theorem null_flag_is_dereferenced (at_ : site) (T : ctype) (p : pointer)
    (n : Z) (s : state val) :
  sptr_free at_ (mret (Sptr p n Null)) s = Undef /\
  sptr_at at_ T (mret (Sptr p 1 Null)) 0 s = Undef /\
  fails_with at_ IndexOutOfRange s (sptr_at at_ T (mret (Sptr Null 0 Null)) 0 s).
Proof.
  split_and!.
  - by apply sptr_free_flag_undef, flag_test_null.
  - apply sptr_at_flag_undef; [by apply flag_test_null|simpl; lia|lia].
  - apply sptr_at_out_of_range; simpl; lia.
Qed.

(** C3 (the code does otherwise).  A successful [sptr_free] leaves the flag
    cell deallocated, and the test both macros start from reads that cell:
    after a release the test is a read of freed memory. *)
Theorem flag_cell_read_after_free (at_ : site) (h : sptr) (s : state val) :
  releasable h s = true ->
  sptr_free at_ (mret h) s = Ret tt (released h s) /\
  valid_access 1 (isf h) (released h s) = false /\
  flag_test (mret h) (released h s) = Undef.
Proof.
  intros L. destruct (released_flag_gone h s L) as (bf & Ef & Hf).
  split_and!.
  - by apply sptr_free_releasable.
  - unfold valid_access. by rewrite Ef, Hf.
  - by apply (flag_test_dangling h _ bf 0).
Qed.

Lemma flag_cell_read_after_free_witness :
  releasable Demo.h_two Demo.s_two = true /\
  sptr_free (here 5) (mret Demo.h_two) Demo.s_two
    = Ret tt (released Demo.h_two Demo.s_two) /\
  valid_access 1 (isf Demo.h_two) (released Demo.h_two Demo.s_two) = false /\
  flag_test (mret Demo.h_two) (released Demo.h_two Demo.s_two) = Undef.
Proof.
  split; [by vm_compute|].
  apply (flag_cell_read_after_free (here 5) Demo.h_two Demo.s_two). by vm_compute.
Defined.

(** C4 (the code does otherwise).  Whatever the text [e] of the count is,
    on a freshly allocated handle the first
    [sptr_free] succeeds and removes the buffer and the flag cell; a flag
    that is raised in an allocated cell is reported as "double free" with
    the heap untouched; but the second [sptr_free] on the same handle finds
    no such cell: it reads freed memory and is undefined, and no
    "double free" is reported. *)
Theorem release_twice (at_ at1 at2 : site) (T : ctype) (e : text) (s : state val) :
  grants 2 (script s) = true ->
  exists h s1,
    sptr_alloc at_ T e s = Ret h s1 /\
    sptr_free at1 (mret h) s1 = Ret tt (released h s1) /\
    (forall g t, flag_raised g t = true ->
       fails_with at2 DoubleFree t (sptr_free at2 (mret g) t)) /\
    sptr_free at2 (mret h) (released h s1) = Undef.
Proof.
  intros G. exists (fresh_handle e s), (with_fresh T e s).
  pose proof (fresh_releasable T e s) as L.
  destruct (released_flag_gone _ _ L) as (bf & Ef & Hf).
  split_and!.
  - by apply sptr_alloc_ok.
  - by apply sptr_free_releasable.
  - intros g t. apply sptr_free_flag_raised.
  - by apply sptr_free_flag_undef, (flag_test_dangling _ _ bf 0).
Qed.

Lemma release_twice_witness :
  grants 2 (script (init [] : state val)) = true /\
  exists h s1,
    sptr_alloc (here 3) Tint (Prim 10) (init []) = Ret h s1 /\
    sptr_free (here 4) (mret h) s1 = Ret tt (released h s1) /\
    (forall g t, flag_raised g t = true ->
       fails_with (here 5) DoubleFree t (sptr_free (here 5) (mret g) t)) /\
    sptr_free (here 5) (mret h) (released h s1) = Undef.
Proof.
  split; [reflexivity|].
  apply (release_twice (here 3) (here 4) (here 5) Tint (Prim 10) (init [])). reflexivity.
Defined.

(** C6 (the code does otherwise).  [sptr_alloc] asks the allocator twice
    and tests only the first answer.  A refused request for the buffer is
    reported as "memory allocation failed" at the call site and the process
    exits; but when the request for the flag cell is refused, whatever
    became of the first, the macro writes the initial flag through the null
    pointer: that is undefined, and nothing is reported. *)
Theorem flag_request_unchecked (at_ : site) (T : ctype) (e : text)
    (hp : gmap block (blk val)) (nx : block) (ok : bool) (rest : list bool)
    (lc : gmap string val) (er : list diag) :
  sptr_alloc at_ T e (State hp nx (false :: true :: rest) lc er)
    = Exit 1 (reported at_ AllocationFailure
                (State (<[nx := Blk 1 {[0 := Cell 1 (Vint 0)]}]> hp)
                       (Pos.succ nx) rest lc er)) /\
  sptr_alloc at_ T e (State hp nx (ok :: false :: rest) lc er) = Undef.
Proof.
  split.
  - by apply (sptr_alloc_buffer_refused at_ T e
               (State hp nx (false :: true :: rest) lc er) (true :: rest)).
  - by apply (sptr_alloc_flag_refused at_ T e _ ok rest).
Qed.
End AfterRelease.

(** ** Elements: matrices, reading back what was written *)

Section Elements.
Import Checked CheckedFacts.

Lemma sptr_at_reads_only at_ T h i : reads_only (sptr_at at_ T (mret h) i).
Proof.
  unfold sptr_at. apply bind_reads_only; [apply mret_reads_only|].
  intros h1. destruct (orb _ _).
  - intros s a s'. by rewrite mbind_unfold.
  - apply bind_reads_only; [apply flag_test_reads_only|].
    intros [].
    + intros s a s'. by rewrite mbind_unfold.
    + apply bind_reads_only; [apply mret_reads_only|]. intros ?. apply mret_reads_only.
Qed.

Lemma rd_reads_only T l : reads_only (rd T l).
Proof.
  unfold rd. apply bind_reads_only; [apply load_reads_only|].
  intros v. destruct (has_type T v); [apply mret_reads_only|].
  intros s a s'. done.
Qed.

Lemma row_reads_only at_ h i : reads_only (row at_ (mret h) i).
Proof.
  unfold row. apply bind_reads_only; [apply sptr_at_reads_only|].
  intros l. apply bind_reads_only; [apply rd_reads_only|].
  apply as_sptr_reads_only.
Qed.

Lemma sptr_mat_by_value at_ T h i j s :
  sptr_mat at_ T (mret h) i j s
  = (r ← row at_ (mret h) i; sptr_at at_ T (mret r) j) s.
Proof.
  unfold sptr_mat. rewrite (mbind_unfold (row at_ (mret h) i)).
  destruct (row at_ (mret h) i s) as [r s1|c s1|] eqn:E.
  - pose proof (row_reads_only _ _ _ _ _ _ E) as ->. by apply sptr_at_value.
  - unfold sptr_at. by rewrite mbind_unfold, E.
  - unfold sptr_at. by rewrite mbind_unfold, E.
Qed.

(** C7.  [sptr_mat(T, h, i, j)] is [sptr_at(T, r, j)] on the handle [r]
    that [sptr_at(sptr, h, i)] designates; a row index out of range is
    reported whatever [j] is; and for rows of 3, 1 and 5 columns, (1, 0)
    yields an element while (1, 1) and (3, 0) are reported as out of
    range. *)
Theorem matrix_access (at_ : site) (T : ctype) (h : sptr) (i j : Z) (s : state val) :
  sptr_mat at_ T (mret h) i j s
    = (r ← row at_ (mret h) i; sptr_at at_ T (mret r) j) s /\
  (i < 2 ^ 64 -> ~ (0 <= i < size h) ->
     fails_with at_ IndexOutOfRange s (sptr_mat at_ T (mret h) i j s)) /\
  exists m s0,
    Demo.jagged (init []) = Ret m s0 /\
    (exists r, row (here 9) (mret m) 1 s0 = Ret r s0 /\ size r = 1 /\
       sptr_mat (here 9) Tint (mret m) 1 0 s0 = Ret (ptr r) s0) /\
    fails_with (here 9) IndexOutOfRange s0 (sptr_mat (here 9) Tint (mret m) 1 1 s0) /\
    fails_with (here 9) IndexOutOfRange s0 (sptr_mat (here 9) Tint (mret m) 3 0 s0).
Proof.
  split; [apply sptr_mat_by_value|]. split.
  - intros Hi Hr. rewrite sptr_mat_by_value. unfold fails_with, row.
    rewrite !mbind_unfold.
    by rewrite (sptr_at_out_of_range at_ Tsptr h i s Hi Hr).
  - eexists _, _. split; [vm_compute; reflexivity|].
    split; [|split; vm_compute; reflexivity].
    eexists. split; [vm_compute; reflexivity|]. split; vm_compute; reflexivity.
Qed.

(** Conversion to a type yields a value of the type. *)
Lemma to_char_idem z : to_char (to_char z) = to_char z.
Proof. unfold to_char. rewrite Z.sub_add. by rewrite Z.mod_mod. Qed.

Lemma to_int_idem z : to_int (to_int z) = to_int z.
Proof. unfold to_int. rewrite Z.sub_add. by rewrite Z.mod_mod. Qed.

Lemma to_long_idem z : to_long (to_long z) = to_long z.
Proof. unfold to_long. rewrite Z.sub_add. by rewrite Z.mod_mod. Qed.

Lemma convert_has_type T v w : convert T v = Some w -> has_type T w = true.
Proof.
  unfold has_type. intros E. apply bool_decide_eq_true_2.
  destruct T, v; simpl in E; try done.
  - injection E as <-. simpl. by rewrite to_char_idem.
  - injection E as <-. simpl. by rewrite to_int_idem.
  - injection E as <-. simpl. by rewrite to_long_idem.
  - by injection E as <-.
  - destruct (decide _) as [->|]; [|done]. injection E as <-. simpl.
    by rewrite decide_True.
Qed.

Lemma has_type_convert T v : has_type T v = true -> convert T v = Some v.
Proof. unfold has_type. by intros ?%bool_decide_eq_true. Qed.

(** What writing [v] to element [i] of [h] does to the heap: the object
    [w] that [v] converts to is put at [i * sizeof(T)]. *)
Lemma wr_element T h i v w s bp kp :
  ptr h = Ptr bp 0 -> heap s !! bp = Some kp ->
  size h * sizeof T <= bsize kp -> 0 <= i < size h ->
  convert T v = Some w ->
  wr T (ptr_add (ptr h) (i * sizeof T)) v s
  = Ret tt (set_heap (<[bp := put (i * sizeof T) (sizeof T) w kp]> (heap s)) s).
Proof.
  intros Ep Hp Hs Hi Hc. unfold wr. rewrite Hc. unfold store. rewrite Ep.
  cbn [ptr_add]. rewrite Z.add_0_l, Hp.
  pose proof (sizeof_pos T).
  rewrite bool_decide_eq_true_2; [done|nia].
Qed.

(** What reading element [i] of [h] yields: the object of type [T] at
    [i * sizeof(T)], if there is one. *)
Lemma rd_element T h i s bp kp :
  ptr h = Ptr bp 0 -> heap s !! bp = Some kp ->
  size h * sizeof T <= bsize kp -> 0 <= i < size h ->
  value (rd T (ptr_add (ptr h) (i * sizeof T)) s)
  = v ← object_at (sizeof T) kp (i * sizeof T);
    if has_type T v then Some v else None.
Proof.
  intros Ep Hp Hs Hi. unfold rd. rewrite mbind_unfold.
  pose proof (sizeof_pos T).
  assert (L := load_object (sizeof T) bp (i * sizeof T) s kp Hp).
  rewrite Ep. cbn [ptr_add]. rewrite Z.add_0_l.
  rewrite <- L by nia.
  destruct (load (sizeof T) (Ptr bp (i * sizeof T)) s) as [v s1| |]; simpl; try done.
  by destruct (has_type T v).
Qed.

(** C8, as claimed for every value and every live handle: it fails.
    [sptr_at(char, h, 0) = 300] on a handle of four [char]s stores 300
    converted to [char], and the element reads 44.  And a handle that
    [sptr_alloc] has returned and nobody has released may have a count its
    buffer has no room for: [sptr_alloc(long, n)] with [n] = 2^61 + 1
    gets 8 bytes, index 1 is within the count, and the write through
    [sptr_at(long, h, 1)] is undefined. *)
Lemma written_value_not_read_back :
  (exists h s0 s1,
     sptr_alloc (here 1) Tchar (Prim 4) (init []) = Ret h s0 /\
     (l ← sptr_at (here 2) Tchar (mret h) 0; wr Tchar l (Vint 300)) s0 = Ret tt s1 /\
     (l ← sptr_at (here 3) Tchar (mret h) 0; rd Tchar l) s1 = Ret (Vint 44) s1) /\
  (exists h s0,
     sptr_alloc (here 1) Tlong (Prim (2 ^ 61 + 1)) (init []) = Ret h s0 /\
     size h = 2 ^ 61 + 1 /\ flag_clear h s0 = true /\
     (l ← sptr_at (here 2) Tlong (mret h) 1; wr Tlong l (Vint 7)) s0 = Undef).
Proof.
  split.
  - eexists _, _, _. split_and!; vm_compute; reflexivity.
  - eexists _, _. split_and!; vm_compute; reflexivity.
Qed.

(** C8, amended.  Let [h] be a handle whose flag is clear and whose
    buffer has room for [size h] elements of type [T], its [size] a
    [size_t], and let [i] be an index in range.  Writing [v] through
    [sptr_at(T, h, i)] stores [v] converted to [T], and reading
    [sptr_at(T, h, i)] again yields that: [v] itself when [v] is a value
    of type [T].  The handle stays as it was and every other element
    reads as before. *)
Theorem write_then_read (at_ at' : site) (T : ctype) (h : sptr) (i : Z)
    (v w : val) (s : state val) :
  live_handle T h s = true ->
  size h < 2 ^ 64 -> 0 <= i < size h ->
  convert T v = Some w ->
  exists s',
    (l ← sptr_at at_ T (mret h) i; wr T l v) s = Ret tt s' /\
    (l ← sptr_at at' T (mret h) i; rd T l) s' = Ret w s' /\
    (has_type T v = true -> w = v) /\
    live_handle T h s' = true /\
    (forall j, 0 <= j < size h -> j ≠ i ->
       value ((l ← sptr_at at' T (mret h) j; rd T l) s')
       = value ((l ← sptr_at at' T (mret h) j; rd T l) s)).
Proof.
  intros L Hm Hi Hc.
  destruct (live_handle_inv _ _ _ L) as (bp & bf & kp & kf & Ep & Ef & Hne & Hp & Hf & Hs & ? & ?).
  pose proof (live_handle_flag_clear _ _ _ L) as F.
  pose proof (sizeof_pos T) as Hsz.
  set (s' := set_heap (<[bp := put (i * sizeof T) (sizeof T) w kp]> (heap s)) s).
  assert (Hp' : heap s' !! bp = Some (put (i * sizeof T) (sizeof T) w kp)).
  { apply lookup_insert_eq. }
  assert (F' : flag_clear h s' = true).
  { unfold flag_clear. rewrite Ef. simpl. rewrite lookup_insert_ne, Hf by done.
    by apply bool_decide_eq_true_2. }
  assert (At : forall a t j, flag_clear h t = true -> 0 <= j < size h ->
            sptr_at a T (mret h) j t = Ret (ptr_add (ptr h) (j * sizeof T)) t).
  { intros a t j Ft Hj. apply sptr_at_in_range; [done|done|lia]. }
  exists s'. split_and!.
  - rewrite (mbind_ret _ _ _ _ _ (At at_ s i F Hi)).
    by apply (wr_element T h i v w s bp kp).
  - rewrite (mbind_ret _ _ _ _ _ (At at' s' i F' Hi)).
    unfold rd. rewrite mbind_unfold. unfold load. rewrite Ep. cbn [ptr_add].
    rewrite Z.add_0_l, Hp'. cbn [bsize put].
    rewrite bool_decide_eq_true_2 by nia. rewrite put_lookup. cbn [csize cval].
    rewrite decide_True by done. by rewrite (convert_has_type T v w Hc).
  - intros Ht. apply has_type_convert in Ht. congruence.
  - unfold live_handle. rewrite F'. simpl. unfold buffer_of. rewrite Ep.
    rewrite decide_True by (by rewrite Ef; split; [|intros [= ?]]).
    simpl. rewrite lookup_insert_eq. simpl. by apply bool_decide_eq_true_2.
  - intros j Hj Hji.
    rewrite (mbind_ret _ _ _ _ _ (At at' s' j F' Hj)).
    rewrite (mbind_ret _ _ _ _ _ (At at' s j F Hj)).
    rewrite (rd_element T h j s' bp _ Ep Hp') by done.
    rewrite (rd_element T h j s bp kp Ep Hp) by done.
    rewrite object_at_put; [done| |done].
    assert (j < i \/ i < j) as [?|?] by lia; [left|right]; nia.
Qed.

Lemma write_then_read_witness :
  live_handle Tchar (Sptr (Ptr 1 0) 4 (Ptr 2 0))
    (with_fresh Tchar (Prim 4) (init [])) = true /\
  4 < 2 ^ 64 /\ 0 <= 2 < 4 /\
  convert Tchar (Vint 300) = Some (Vint 44) /\
  exists s',
    (l ← sptr_at (here 4) Tchar (mret (Sptr (Ptr 1 0) 4 (Ptr 2 0))) 2;
     wr Tchar l (Vint 300)) (with_fresh Tchar (Prim 4) (init [])) = Ret tt s' /\
    (l ← sptr_at (here 5) Tchar (mret (Sptr (Ptr 1 0) 4 (Ptr 2 0))) 2; rd Tchar l) s'
      = Ret (Vint 44) s' /\
    (has_type Tchar (Vint 300) = true -> Vint 44 = Vint 300) /\
    live_handle Tchar (Sptr (Ptr 1 0) 4 (Ptr 2 0)) s' = true /\
    (forall j, 0 <= j < 4 -> j ≠ 2 ->
       value ((l ← sptr_at (here 5) Tchar (mret (Sptr (Ptr 1 0) 4 (Ptr 2 0))) j;
               rd Tchar l) s')
       = value ((l ← sptr_at (here 5) Tchar (mret (Sptr (Ptr 1 0) 4 (Ptr 2 0))) j;
                 rd Tchar l) (with_fresh Tchar (Prim 4) (init [])))).
Proof.
  split; [by vm_compute|]. split; [by vm_compute|]. split; [by vm_compute|].
  split; [by vm_compute|].
  apply (write_then_read (here 4) (here 5) Tchar (Sptr (Ptr 1 0) 4 (Ptr 2 0)) 2
           (Vint 300) (Vint 44) (with_fresh Tchar (Prim 4) (init [])));
    by vm_compute.
Defined.
End Elements.

(** ** What a release leaves alone *)

Section ReleaseFrame.
Import Checked CheckedFacts.

(** C10.  A successful [sptr_free(x)] is the write of 1 to the flag cell
    followed by the two calls of [free], and nothing else: the variables of
    the program, [x] and every copy of it among them, hold the handles they
    held, with the same [ptr], [size] and [isf]; every block other than the
    buffer and the flag cell is what it was, so a copy stored in memory is
    unchanged too; nothing is printed and the allocator is not asked. *)
Theorem release_frame (at_ : site) (x : string) (h : sptr) (s : state val) :
  locals s !! x = Some (Vsptr h) ->
  releasable h s = true ->
  exists s',
    sptr_free at_ (var x) s = Ret tt s' /\
    (store 1 (isf h) (Vint 1);; free (ptr h);; free (isf h) : M val unit) s = Ret tt s' /\
    locals s' = locals s /\
    locals s' !! x = Some (Vsptr h) /\
    (forall b, Some b ≠ block_of (ptr h) -> Some b ≠ block_of (isf h) ->
       heap s' !! b = heap s !! b) /\
    (forall b, Some b = block_of (ptr h) \/ Some b = block_of (isf h) ->
       heap s' !! b = None) /\
    next s' = next s /\ script s' = script s /\ stderr s' = stderr s.
Proof.
  intros Hx L. exists (released h s).
  assert (E : sptr_free at_ (var x) s = Ret tt (released h s)).
  { rewrite (sptr_free_value at_ (var x) h s (var_value x h s Hx)).
    by apply sptr_free_releasable. }
  pose proof (releasable_flag_clear _ _ L) as F.
  destruct (releasable_inv _ _ L) as (bp & bf & kp & kf & Ep & Ef & Hne & Hp & Hf & ? & _).
  assert (Hr : released h s = set_heap (delete bf (delete bp (heap s))) s).
  { unfold released. by rewrite Ep, Ef. }
  split_and!; try done.
  - rewrite <- (sptr_free_releasable at_ h s L). unfold sptr_free.
    by rewrite (mbind_ret _ _ _ _ _ (flag_clear_test h s F)).
  - by rewrite Hr.
  - by rewrite Hr.
  - intros b Hb1 Hb2. rewrite Hr, Ep, Ef in *. simpl in *.
    rewrite !lookup_delete_ne; [done|congruence|congruence].
  - intros b Hb. rewrite Hr, Ep, Ef in *. simpl in *.
    destruct Hb as [[= ->]|[= ->]].
    + by rewrite lookup_delete_ne, lookup_delete_eq.
    + by rewrite lookup_delete_eq.
  - by rewrite Hr.
  - by rewrite Hr.
  - by rewrite Hr.
Qed.

Lemma release_frame_witness :
  locals Demo.s_two !! "h1" = Some (Vsptr Demo.h_two) /\
  releasable Demo.h_two Demo.s_two = true /\
  exists s',
    sptr_free (here 5) (var "h1") Demo.s_two = Ret tt s' /\
    (store 1 (isf Demo.h_two) (Vint 1);; free (ptr Demo.h_two);;
     free (isf Demo.h_two) : M val unit) Demo.s_two = Ret tt s' /\
    locals s' = locals Demo.s_two /\
    locals s' !! "h1" = Some (Vsptr Demo.h_two) /\
    (forall b, Some b ≠ block_of (ptr Demo.h_two) ->
       Some b ≠ block_of (isf Demo.h_two) ->
       heap s' !! b = heap Demo.s_two !! b) /\
    (forall b, Some b = block_of (ptr Demo.h_two) \/
               Some b = block_of (isf Demo.h_two) ->
       heap s' !! b = None) /\
    next s' = next Demo.s_two /\ script s' = script Demo.s_two /\
    stderr s' = stderr Demo.s_two.
Proof.
  split; [by vm_compute|]. split; [by vm_compute|].
  apply (release_frame (here 5) "h1" Demo.h_two Demo.s_two); by vm_compute.
Defined.
End ReleaseFrame.

(** ** Release mode against checked mode *)

Section Simulation.
Import CheckedFacts.

Lemma plain_sizeof T : plain T = true -> ReleaseMode.sizeof T = Checked.sizeof T.
Proof. by destruct T. Qed.

(** The count of the release build is the count of the checked build,
    converted to [int]. *)
Lemma to_int_size_t n : to_int (to_size_t n) = to_int n.
Proof.
  unfold to_int, to_size_t. f_equal.
  rewrite (Z.mod_eq n (2 ^ 64)) by lia.
  replace (n - 2 ^ 64 * (n / 2 ^ 64) + 2 ^ 31)
    with (n + 2 ^ 31 + (- 2 ^ 32 * (n / 2 ^ 64)) * 2 ^ 32) by lia.
  by rewrite Z.mod_add.
Qed.

(** The two builds convert what a trace writes in the same way, and
    recognise the same values of a type. *)
Lemma convert_elem T v :
  plain T = true ->
  exists a b,
    Checked.convert T (Checked.elem T v) = Some a /\
    ReleaseMode.convert T (ReleaseMode.elem T v) = Some b /\ plain_agree a b.
Proof.
  destruct T; intros HT; try done; simpl; eexists _, _.
  1-3: by split_and!.
  rewrite !decide_True by done. by split_and!.
Qed.

Lemma has_type_agree T a b :
  plain_agree a b -> Checked.has_type T a = ReleaseMode.has_type T b.
Proof.
  unfold Checked.has_type, ReleaseMode.has_type.
  destruct a as [x| |n x], b as [y| |m y]; simpl; try done.
  - intros ->. destruct T; simpl; try done.
    all: apply bool_decide_ext; split; intros [= E]; by rewrite E at 1.
  - intros [-> ->]. destruct T as [| | | |p]; simpl; try done.
    destruct (decide (p = m)); [|done].
    apply bool_decide_ext; split; done.
Qed.

Lemma as_num_agree a b (sc : state Checked.val) (sr : state ReleaseMode.val) z sc' :
  plain_agree a b -> Checked.as_num a sc = Ret z sc' ->
  sc' = sc /\ ReleaseMode.as_num b sr = Ret z sr.
Proof.
  destruct a as [x| |n x], b as [y| |m y]; simpl; try done.
  - intros ->. rewrite !mret_unfold. by intros [= <- <-].
  - intros [-> ->]. rewrite !mret_unfold. by intros [= <- <-].
Qed.

Lemma related_var φ sc sr x hc :
  related φ sc sr -> locals sc !! x = Some (Checked.Vsptr hc) ->
  exists hr k, locals sr !! x = Some (ReleaseMode.Vsptr hr) /\ handle_agree φ k hc hr.
Proof.
  intros R H. pose proof (rel_locals _ _ _ R x) as A. rewrite H in A.
  destruct (locals sr !! x) as [[|hr|]|]; try done.
  destruct A as (k & ?). by exists hr, k.
Qed.

Lemma checked_var_inv x (s : state Checked.val) h s' :
  Checked.var x s = Ret h s' -> s' = s /\ locals s !! x = Some (Checked.Vsptr h).
Proof.
  unfold Checked.var. rewrite mbind_unfold. unfold get_local.
  destruct (locals s !! x) as [[|h0|]|]; try done. simpl.
  rewrite mret_unfold. by intros [= -> ->].
Qed.

Lemma release_var x (s : state ReleaseMode.val) h :
  locals s !! x = Some (ReleaseMode.Vsptr h) -> ReleaseMode.var x s = Ret h s.
Proof.
  intros H. unfold ReleaseMode.var. rewrite mbind_unfold. unfold get_local.
  by rewrite H.
Qed.

(** What a variable of the checked build holds, and what the release build
    holds in it. *)
Lemma sim_var φ sc sr x hc s1 :
  related φ sc sr -> Checked.var x sc = Ret hc s1 ->
  s1 = sc /\ locals sc !! x = Some (Checked.Vsptr hc) /\
  exists hr k, ReleaseMode.var x sr = Ret hr sr /\ handle_agree φ k hc hr.
Proof.
  intros R V. destruct (checked_var_inv _ _ _ _ V) as [-> Hx].
  destruct (related_var _ _ _ _ _ R Hx) as (hr & k & Hxr & A).
  split_and!; try done. exists hr, k. split; [|done].
  by apply release_var.
Qed.

(** The kind of the buffer behind a handle expression is the kind its
    pair has. *)
Lemma buffer_kind_value φ (sp : M Checked.val Checked.sptr) sc hc hr k :
  sp sc = Ret hc sc -> handle_agree φ k hc hr ->
  buffer_kind (snd <$> φ) sp sc = Some k.
Proof.
  intros E (bc & br & Ep & _ & _ & Hφ & _). unfold buffer_kind.
  by rewrite E, Ep, lookup_fmap, Hφ.
Qed.

(** A handle that agrees with one of the release build is either live,
    with all that [sptr_at] and [sptr_free] need, or its flag cell is
    gone. *)
Lemma related_handle φ sc sr k hc hr :
  related φ sc sr -> handle_agree φ k hc hr ->
  exists bc br,
    Checked.ptr hc = Ptr bc 0 /\ Checked.isf hc = Ptr (Pos.succ bc) 0 /\
    ReleaseMode.ptr hr = Ptr br 0 /\ φ !! bc = Some (br, k) /\
    ((exists kc kr,
        heap sc !! bc = Some kc /\ heap sr !! br = Some kr /\ blk_agree φ k kc kr /\
        Checked.releasable hc sc = true) \/
     Checked.flag_test (mret hc) sc = Undef).
Proof.
  intros R (bc & br & Ep & Ef & Er & Hφ & _). exists bc, br. split_and!; try done.
  destruct (rel_blocks _ _ _ R bc br k Hφ)
    as [(kc & kr & Hc & Hr & A & Hf)|(Hc & Hf & Hr)].
  - left. exists kc, kr. split_and!; try done.
    unfold Checked.releasable. apply andb_true_iff. split.
    + unfold Checked.flag_clear. rewrite Ef. cbv iota beta. rewrite Hf.
      apply bool_decide_eq_true_2. split_and!; try done.
    + unfold Checked.buffer_of. rewrite Ep, Ef. cbv iota beta.
      rewrite decide_True, Hc; [by apply bool_decide_eq_true_2|].
      split; [done|]. intros [= E]. lia.
  - right. by apply (flag_test_dangling hc sc (Pos.succ bc) 0).
Qed.

(** Replacing the two buffers of a live pair by buffers that agree. *)
Lemma related_update φ sc sr bc br k kc' kr' :
  related φ sc sr -> φ !! bc = Some (br, k) ->
  is_Some (heap sc !! bc) -> is_Some (heap sr !! br) ->
  blk_agree φ k kc' kr' ->
  related φ (set_heap (<[bc := kc']> (heap sc)) sc)
            (set_heap (<[br := kr']> (heap sr)) sr).
Proof.
  intros R Hφ Hc Hr A. constructor; simpl; try apply R.
  - intros b [k0 Hb]. apply (rel_fresh_c _ _ _ R).
    destruct (decide (b = bc)) as [->|]; [done|].
    rewrite lookup_insert_ne in Hb by done. by eexists.
  - intros b [k0 Hb]. apply (rel_fresh_r _ _ _ R).
    destruct (decide (b = br)) as [->|]; [done|].
    rewrite lookup_insert_ne in Hb by done. by eexists.
  - intros b2 br2 k2 H2.
    assert (Hs : Pos.succ b2 ≠ bc).
    { intros E. apply (rel_sep _ _ _ R b2 bc); by eauto. }
    rewrite (lookup_insert_ne _ bc (Pos.succ b2)) by done.
    destruct (decide (b2 = bc)) as [->|Hne].
    + assert (br2 = br /\ k2 = k) as [-> ->] by (split; congruence).
      rewrite !lookup_insert_eq.
      destruct (rel_blocks _ _ _ R bc br k Hφ)
        as [(kc0 & kr0 & Hc0 & Hr0 & A0 & Hf)|(Hc0 & _)].
      * left. by eexists _, _.
      * rewrite Hc0 in Hc. by destruct Hc.
    + assert (br2 ≠ br).
      { intros ->. apply Hne. by apply (rel_inj _ _ _ R b2 bc br k2 k). }
      rewrite !lookup_insert_ne by done. by apply (rel_blocks _ _ _ R).
Qed.

Lemma related_free φ sc sr bc br k :
  related φ sc sr -> φ !! bc = Some (br, k) ->
  related φ (set_heap (delete (Pos.succ bc) (delete bc (heap sc))) sc)
            (set_heap (delete br (heap sr)) sr).
Proof.
  intros R Hφ. constructor; simpl; try apply R.
  - intros b [k0 Hb]. apply (rel_fresh_c _ _ _ R).
    apply lookup_delete_Some in Hb as [_ Hb].
    apply lookup_delete_Some in Hb as [_ Hb]. by eexists.
  - intros b [k0 Hb]. apply (rel_fresh_r _ _ _ R).
    apply lookup_delete_Some in Hb as [_ Hb]. by eexists.
  - intros b2 br2 k2 H2.
    destruct (decide (b2 = bc)) as [->|Hne].
    + assert (br2 = br) as -> by congruence. right.
      rewrite lookup_delete_ne, !lookup_delete_eq by lia. done.
    + assert (br2 ≠ br).
      { intros ->. apply Hne. by apply (rel_inj _ _ _ R b2 bc br k2 k). }
      assert (Pos.succ b2 ≠ bc).
      { intros E. apply (rel_sep _ _ _ R b2 bc); by eauto. }
      assert (b2 ≠ Pos.succ bc).
      { apply (rel_sep _ _ _ R bc b2); by eauto. }
      rewrite !lookup_delete_ne by lia. by apply (rel_blocks _ _ _ R).
Qed.

Lemma forallb_id_tail (l : list bool) : forallb id l = true -> forallb id (tail l) = true.
Proof. destruct l as [|[] l]; simpl; done. Qed.

Lemma forallb_id_grants k (l : list bool) : forallb id l = true -> grants k l = true.
Proof.
  unfold grants. revert k. induction l as [|[] l IH]; intros [|k]; simpl; try done.
  apply IH.
Qed.

Lemma handle_agree_mono φ bc p k hc hr :
  φ !! bc = None -> handle_agree φ k hc hr -> handle_agree (<[bc := p]> φ) k hc hr.
Proof.
  intros Hn (b & b' & ? & ? & ? & Hb & ?). exists b, b'. split_and!; try done.
  rewrite lookup_insert_ne; [done|]. intros ->. congruence.
Qed.

Lemma blk_agree_mono φ bc p k kc kr :
  φ !! bc = None -> blk_agree φ k kc kr -> blk_agree (<[bc := p]> φ) k kc kr.
Proof.
  intros Hn. destruct k; simpl; [done|].
  intros (n & ? & ? & ? & A & ? & ?). exists n. split_and!; try done.
  intros i. specialize (A i). unfold row_agree in *.
  destruct (bcont kc !! (i * 24)) as [[? vc]|], (bcont kr !! (i * 16)) as [[? vr]|];
    try done.
  destruct A as (? & ? & A). split_and!; try done. simpl in *.
  destruct vc as [|hc|], vr as [|hr|]; try done.
  destruct A as [k A]. exists k. by apply handle_agree_mono.
Qed.

(** A fresh buffer on each side, paired at kind [k]. *)
Lemma related_alloc φ sc sr T e k szr :
  related φ sc sr ->
  blk_agree φ k (Blk (to_size_t (pasted (Checked.sizeof T) e)) ∅) (Blk szr ∅) ->
  related (<[next sc := (next sr, k)]> φ)
    (Checked.with_fresh T e sc)
    (State (<[next sr := Blk szr ∅]> (heap sr))
           (Pos.succ (next sr)) (tail (script sr)) (locals sr) (stderr sr)).
Proof.
  intros R Hk.
  assert (Hn : φ !! next sc = None).
  { destruct (φ !! next sc) as [[b k0]|] eqn:E; [|done].
    apply (rel_dom _ _ _ R) in E. lia. }
  constructor; simpl.
  - apply forallb_id_tail, R.
  - apply R.
  - intros b [k0 Hb].
    destruct (decide (b = Pos.succ (next sc))) as [->|]; [lia|].
    rewrite lookup_insert_ne in Hb by done.
    destruct (decide (b = next sc)) as [->|]; [lia|].
    rewrite lookup_insert_ne in Hb by done.
    assert (b < next sc)%positive by (apply (rel_fresh_c _ _ _ R); by eexists). lia.
  - intros b [k0 Hb].
    destruct (decide (b = next sr)) as [->|]; [lia|].
    rewrite lookup_insert_ne in Hb by done.
    assert (b < next sr)%positive by (apply (rel_fresh_r _ _ _ R); by eexists). lia.
  - intros bc br k0 H. apply lookup_insert_Some in H as [[<- [= <- <-]]|[? H]]; [lia|].
    apply (rel_dom _ _ _ R) in H. lia.
  - intros b1 b2 br k1 k2 H1 H2.
    apply lookup_insert_Some in H1 as [[<- [= <- <-]]|[? H1]];
      apply lookup_insert_Some in H2 as [[<- E]|[? H2]]; try done.
    + apply (rel_dom _ _ _ R) in H2. lia.
    + injection E as <- <-. apply (rel_dom _ _ _ R) in H1. lia.
    + by apply (rel_inj _ _ _ R b1 b2 br k1 k2).
  - intros b1 b2 [[br1 k1] H1] [[br2 k2] H2].
    apply lookup_insert_Some in H1 as [[<- _]|[? H1]];
      apply lookup_insert_Some in H2 as [[<- _]|[? H2]].
    + lia.
    + apply (rel_dom _ _ _ R) in H2. lia.
    + apply (rel_dom _ _ _ R) in H1. lia.
    + apply (rel_sep _ _ _ R); by eexists.
  - intros bc br k0 H. apply lookup_insert_Some in H as [[<- [= <- <-]]|[? H]].
    + left. eexists _, _. rewrite lookup_insert_ne, !lookup_insert_eq by lia.
      split_and!; done.
    + pose proof (rel_dom _ _ _ R _ _ _ H) as [? ?].
      rewrite !(lookup_insert_ne _ (Pos.succ (next sc))) by lia.
      rewrite !(lookup_insert_ne _ (next sc)) by lia.
      rewrite (lookup_insert_ne _ (next sr)) by lia.
      destruct (rel_blocks _ _ _ R _ _ _ H)
        as [(kc & kr & Hc & Hr & A & Hf)|D]; [|by right].
      left. exists kc, kr. split_and!; try done. by apply blk_agree_mono.
  - intros x. pose proof (rel_locals _ _ _ R x) as A. unfold local_agree in *.
    destruct (locals sc !! x) as [[|hc|]|], (locals sr !! x) as [[|hr|]|]; try done.
    destruct A as (k0 & ?). exists k0. by apply handle_agree_mono.
Qed.

(** Assigning handles that agree to [x]. *)
Lemma related_set_local φ sc sr x k hc hr :
  related φ sc sr -> handle_agree φ k hc hr ->
  related φ
    (State (heap sc) (next sc) (script sc) (<[x := Checked.Vsptr hc]> (locals sc)) (stderr sc))
    (State (heap sr) (next sr) (script sr) (<[x := ReleaseMode.Vsptr hr]> (locals sr)) (stderr sr)).
Proof.
  intros R A. constructor; simpl; try apply R.
  intros x'. destruct (decide (x' = x)) as [->|].
  - rewrite !lookup_insert_eq. by exists k.
  - rewrite !lookup_insert_ne by done. apply (rel_locals _ _ _ R x').
Qed.

(** The pointer the release build computes. *)
Lemma release_at T (sp : M ReleaseMode.val ReleaseMode.sptr) hr br i sr :
  sp sr = Ret hr sr -> ReleaseMode.ptr hr = Ptr br 0 ->
  ReleaseMode.sptr_at T sp i sr = Ret (Ptr br (i * ReleaseMode.sizeof T)) sr.
Proof.
  intros E Er. unfold ReleaseMode.sptr_at.
  rewrite (mbind_ret _ _ _ _ _ E), mret_unfold, Er. cbn [ptr_add].
  by rewrite Z.add_0_l.
Qed.

(** Where [sptr_at] of the checked build returns a pointer, the flag was
    clear and the pair of buffers is live. *)
Lemma sim_handle_at φ sc sr at_ T k hc hr i l sc' :
  related φ sc sr -> handle_agree φ k hc hr ->
  Checked.sptr_at at_ T (mret hc) i sc = Ret l sc' ->
  sc' = sc /\
  exists bc br kc kr,
    l = Ptr bc (i * Checked.sizeof T) /\ ReleaseMode.ptr hr = Ptr br 0 /\
    φ !! bc = Some (br, k) /\
    heap sc !! bc = Some kc /\ heap sr !! br = Some kr /\ blk_agree φ k kc kr.
Proof.
  intros R A H.
  destruct (related_handle _ _ _ _ _ _ R A)
    as (bc & br & Ep & Ef & Er & Hφ & [(kc & kr & Hc & Hr & Ak & L)|U]).
  - pose proof (releasable_flag_clear _ _ L) as F.
    revert H. unfold Checked.sptr_at.
    rewrite (mbind_ret (mret hc) _ sc hc sc eq_refl).
    destruct (orb _ _); [done|].
    rewrite (mbind_ret _ _ _ _ _ (flag_clear_test hc sc F)).
    rewrite (mbind_ret (mret hc) _ sc hc sc eq_refl), mret_unfold, Ep.
    cbn [ptr_add]. rewrite Z.add_0_l. intros [= <- <-].
    split; [done|]. by exists bc, br, kc, kr.
  - revert H. unfold Checked.sptr_at.
    rewrite (mbind_ret (mret hc) _ sc hc sc eq_refl).
    destruct (orb _ _); [done|]. by rewrite mbind_unfold, U.
Qed.

Lemma sim_var_at φ sc sr at_ T x i l sc' :
  related φ sc sr ->
  Checked.sptr_at at_ T (Checked.var x) i sc = Ret l sc' ->
  sc' = sc /\
  exists k bc br kc kr,
    buffer_kind (snd <$> φ) (Checked.var x) sc = Some k /\
    l = Ptr bc (i * Checked.sizeof T) /\
    ReleaseMode.sptr_at T (ReleaseMode.var x) i sr
      = Ret (Ptr br (i * ReleaseMode.sizeof T)) sr /\
    φ !! bc = Some (br, k) /\
    heap sc !! bc = Some kc /\ heap sr !! br = Some kr /\ blk_agree φ k kc kr.
Proof.
  intros R H.
  destruct (Checked.var x sc) as [hc s1| |] eqn:V;
    [|unfold Checked.sptr_at in H; by rewrite mbind_unfold, V in H..].
  destruct (sim_var _ _ _ _ _ _ R V) as (-> & Hx & hr & k & Vr & A).
  rewrite (sptr_at_value at_ T _ hc i sc V) in H.
  destruct (sim_handle_at _ _ _ _ _ _ _ _ _ _ _ R A H)
    as (-> & bc & br & kc & kr & -> & Er & Hφ & Hc & Hr & Ak).
  split; [done|]. exists k, bc, br, kc, kr. split_and!; try done.
  - by apply (buffer_kind_value φ _ sc hc hr).
  - by apply (release_at T _ hr).
Qed.

(** An element of a plain type written at the same offset of two plain
    buffers that agree. *)
Lemma put_agree φ kc kr o sz a b :
  blk_agree φ KBytes kc kr -> plain_agree a b ->
  blk_agree φ KBytes (put o sz a kc) (put o sz b kr).
Proof.
  intros [As Ac] Aab. split; [done|]. intros o'.
  destruct (decide (o' = o)) as [->|Hne].
  - by rewrite !put_lookup.
  - rewrite !put_lookup_ne by done. specialize (Ac o').
    destruct (bcont kc !! o') as [c|], (bcont kr !! o') as [r|]; try done.
    destruct Ac as [Es Av]. rewrite Es.
    by destruct (decide _).
Qed.

(** A handle written at the same row of two buffers of handles that
    agree. *)
Lemma put_row_agree φ kc kr i hc hr k :
  blk_agree φ KRows kc kr -> handle_agree φ k hc hr ->
  blk_agree φ KRows (put (i * 24) 24 (Checked.Vsptr hc) kc)
                    (put (i * 16) 16 (ReleaseMode.Vsptr hr) kr).
Proof.
  intros (n & Hn & Sc & Sr & Rows & Gc & Gr) A. exists n. split_and!; try done.
  - intros i'. destruct (decide (i' = i)) as [->|Hne].
    + rewrite !put_lookup. simpl. split_and!; try done. by exists k.
    + rewrite !put_lookup_ne by lia. specialize (Rows i').
      destruct (bcont kc !! (i' * 24)) as [c|], (bcont kr !! (i' * 16)) as [r|];
        try done.
      destruct Rows as (Ec & Er & Ah). rewrite Ec, Er.
      rewrite !decide_True by lia. simpl. by rewrite Ec, Er.
  - intros o Ho. rewrite put_lookup_ne.
    + by rewrite (Gc o Ho).
    + intros ->. apply Ho. apply Z_mod_mult.
  - intros o Ho. rewrite put_lookup_ne.
    + by rewrite (Gr o Ho).
    + intros ->. apply Ho. apply Z_mod_mult.
Qed.

(** Writing an element of a plain type at the same offset of a live pair
    of plain buffers. *)
Lemma sim_wr_plain φ sc sr T bc br kc kr o v u sc' :
  related φ sc sr -> plain T = true -> φ !! bc = Some (br, KBytes) ->
  heap sc !! bc = Some kc -> heap sr !! br = Some kr -> blk_agree φ KBytes kc kr ->
  Checked.wr T (Ptr bc o) (Checked.elem T v) sc = Ret u sc' ->
  exists sr',
    ReleaseMode.wr T (Ptr br o) (ReleaseMode.elem T v) sr = Ret u sr' /\
    related φ sc' sr'.
Proof.
  intros R HT Hφ Hc Hr Ak.
  destruct (convert_elem T v HT) as (a & b & Ca & Cb & Aab).
  unfold Checked.wr. rewrite Ca. unfold store. rewrite Hc.
  destruct (bool_decide _) eqn:B; [|done]. intros [= <- <-].
  eexists. split.
  - unfold ReleaseMode.wr. rewrite Cb. unfold store.
    rewrite Hr, (plain_sizeof T HT), <- (proj1 Ak), B. done.
  - apply (related_update φ sc sr bc br KBytes); [done|done|by eexists|by eexists|].
    by apply put_agree.
Qed.

(** Reading an element of a plain type at the same offset of a live pair
    of plain buffers. *)
Lemma sim_rd_plain φ sc sr T bc br kc kr o outs sc' :
  related φ sc sr -> plain T = true -> φ !! bc = Some (br, KBytes) ->
  heap sc !! bc = Some kc -> heap sr !! br = Some kr -> blk_agree φ KBytes kc kr ->
  (v ← Checked.rd T (Ptr bc o); z ← Checked.as_num v; mret [z]) sc = Ret outs sc' ->
  sc' = sc /\
  (v ← ReleaseMode.rd T (Ptr br o); z ← ReleaseMode.as_num v; mret [z]) sr
    = Ret outs sr.
Proof.
  intros R HT Hφ Hc Hr [As Ac].
  unfold Checked.rd, ReleaseMode.rd. rewrite !mbind_unfold.
  unfold load. rewrite Hc, Hr, (plain_sizeof T HT), <- As.
  destruct (bool_decide _) eqn:B; [|done].
  specialize (Ac o).
  destruct (bcont kc !! o) as [[szc vc]|] eqn:Cc; try done.
  destruct (bcont kr !! o) as [[szr vr]|] eqn:Cr; try done.
  destruct Ac as [Es Av]. simpl in Es, Av. subst szr. cbn [csize cval].
  destruct (decide (szc = Checked.sizeof T)); [|done].
  rewrite (has_type_agree T vc vr Av).
  destruct (ReleaseMode.has_type T vr); [|done].
  rewrite !mret_unfold, !mbind_unfold.
  destruct (Checked.as_num vc sc) as [z s1| |] eqn:N; try done.
  destruct (as_num_agree vc vr sc sr z s1 Av N) as [-> Nr].
  rewrite Nr, !mret_unfold. by intros [= <- <-].
Qed.

Lemma sim_put φ sc sr at_ T x i v outs sc' :
  related φ sc sr -> plain T = true ->
  buffer_kind (snd <$> φ) (Checked.var x) sc = Some KBytes ->
  Checked.step at_ (Put T x i v) sc = Ret outs sc' ->
  exists sr', ReleaseMode.step (Put T x i v) sr = Ret outs sr' /\ related φ sc' sr'.
Proof.
  intros R HT HK. simpl. rewrite mbind_unfold.
  destruct (Checked.sptr_at at_ T (Checked.var x) i sc) as [l s1| |] eqn:A; try done.
  destruct (sim_var_at _ _ _ _ _ _ _ _ _ R A)
    as (-> & k & bc & br & kc & kr & Hk & -> & Ar & Hφ & Hc & Hr & Ak).
  assert (k = KBytes) as -> by congruence.
  rewrite mbind_unfold.
  destruct (Checked.wr T _ _ sc) as [u s2| |] eqn:W; try done.
  destruct (sim_wr_plain _ _ _ _ _ _ _ _ _ _ _ _ R HT Hφ Hc Hr Ak W) as (sr' & Wr & R').
  rewrite mret_unfold. intros [= <- <-]. exists sr'. split; [|done].
  rewrite (mbind_ret _ _ _ _ _ Ar), (plain_sizeof T HT), (mbind_ret _ _ _ _ _ Wr).
  done.
Qed.

Lemma sim_get φ sc sr at_ T x i outs sc' :
  related φ sc sr -> plain T = true ->
  buffer_kind (snd <$> φ) (Checked.var x) sc = Some KBytes ->
  Checked.step at_ (Get T x i) sc = Ret outs sc' ->
  exists sr', ReleaseMode.step (Get T x i) sr = Ret outs sr' /\ related φ sc' sr'.
Proof.
  intros R HT HK. simpl. rewrite mbind_unfold.
  destruct (Checked.sptr_at at_ T (Checked.var x) i sc) as [l s1| |] eqn:A; try done.
  destruct (sim_var_at _ _ _ _ _ _ _ _ _ R A)
    as (-> & k & bc & br & kc & kr & Hk & -> & Ar & Hφ & Hc & Hr & Ak).
  assert (k = KBytes) as -> by congruence.
  intros G.
  destruct (sim_rd_plain _ _ _ _ _ _ _ _ _ _ _ R HT Hφ Hc Hr Ak G) as (-> & Gr).
  exists sr. split; [|done].
  by rewrite (mbind_ret _ _ _ _ _ Ar), (plain_sizeof T HT).
Qed.

Lemma sim_copy φ sc sr at_ x y outs sc' :
  related φ sc sr ->
  Checked.step at_ (Copy x y) sc = Ret outs sc' ->
  exists sr', ReleaseMode.step (Copy x y) sr = Ret outs sr' /\ related φ sc' sr'.
Proof.
  intros R. simpl. rewrite mbind_unfold. unfold get_local at 1.
  pose proof (rel_locals _ _ _ R y) as Ay. unfold local_agree in Ay.
  destruct (locals sc !! y) as [[|hc|]|] eqn:Hy; try done.
  destruct (locals sr !! y) as [[|hr|]|] eqn:Hyr; try done.
  destruct Ay as (k & A).
  rewrite mbind_unfold. unfold set_local at 1. rewrite mret_unfold.
  intros [= <- <-]. eexists. split.
  - rewrite mbind_unfold. unfold get_local. rewrite Hyr.
    rewrite mbind_unfold. unfold set_local. by rewrite mret_unfold.
  - by apply (related_set_local φ sc sr x k).
Qed.

Lemma sim_free φ sc sr at_ x outs sc' :
  related φ sc sr ->
  Checked.step at_ (Free x) sc = Ret outs sc' ->
  exists sr', ReleaseMode.step (Free x) sr = Ret outs sr' /\ related φ sc' sr'.
Proof.
  intros R. simpl. rewrite mbind_unfold.
  destruct (Checked.var x sc) as [hc s1| |] eqn:V;
    [|unfold Checked.sptr_free, Checked.flag_test; by rewrite !mbind_unfold, V..].
  destruct (sim_var _ _ _ _ _ _ R V) as (-> & Hx & hr & k & Vr & A).
  rewrite (sptr_free_value at_ _ hc sc (var_value x hc sc Hx)).
  destruct (related_handle _ _ _ _ _ _ R A)
    as (bc & br & Ep & Ef & Er & Hφ & [(kc & kr & Hc & Hr & Ak & L)|U]).
  - rewrite (sptr_free_releasable at_ hc sc L), mret_unfold.
    intros [= <- <-]. eexists. split.
    + rewrite mbind_unfold. unfold ReleaseMode.sptr_free.
      rewrite (mbind_ret _ _ _ _ _ Vr), Er.
      unfold free. rewrite Hr. simpl. by rewrite mret_unfold.
    + unfold Checked.released. rewrite Ep, Ef. by apply (related_free φ sc sr bc br k).
  - by rewrite (sptr_free_flag_undef at_ hc sc U).
Qed.

Lemma sim_alloc φ sc sr at_ x T n outs sc' :
  related φ sc sr ->
  plain T || bool_decide (0 <= n /\ 24 * n < 2 ^ 64) = true ->
  Checked.step at_ (Alloc x T n) sc = Ret outs sc' ->
  exists φ' sr', ReleaseMode.step (Alloc x T n) sr = Ret outs sr' /\
    related φ' sc' sr' /\ snd <$> φ' = <[next sc := kind_of T]> (snd <$> φ).
Proof.
  intros R HT. simpl. rewrite mbind_unfold.
  destruct (Checked.sptr_alloc at_ T (Prim n) sc) as [h s1| |] eqn:E; try done.
  apply sptr_alloc_returns in E as [-> ->].
  rewrite mbind_unfold. unfold set_local at 1. rewrite mret_unfold.
  intros [= <- <-]. exists (<[next sc := (next sr, kind_of T)]> φ). eexists. split_and!.
  - unfold ReleaseMode.sptr_alloc.
    rewrite mbind_unfold, (mbind_ret _ _ _ _ _
      (malloc_granted _ sr (forallb_id_grants 1 _ (rel_script_r _ _ _ R)))).
    rewrite mret_unfold, mbind_unfold. unfold set_local. by rewrite mret_unfold.
  - apply (related_set_local _ (Checked.with_fresh T (Prim n) sc) _ x (kind_of T)).
    + apply (related_alloc φ sc sr T (Prim n) (kind_of T)). { done. }
      unfold kind_of. destruct (plain T) eqn:P; simpl.
      * split; [by rewrite plain_sizeof|done].
      * simpl in HT. apply bool_decide_eq_true in HT as [Hn Hw].
        assert (T = Tsptr) as -> by (by destruct T).
        exists n. simpl. unfold to_size_t. rewrite !Z.mod_small by lia.
        split_and!; try done; lia.
    + exists (next sc), (next sr). split_and!; try done.
      * simpl. apply lookup_insert_eq.
      * simpl. by rewrite to_int_size_t.
  - by rewrite fmap_insert.
Qed.

(** Installing a row: the handle in [y] is written to element [i] of the
    buffer of handles behind [x]. *)
Lemma sim_putrow φ sc sr at_ x i y outs sc' :
  related φ sc sr ->
  buffer_kind (snd <$> φ) (Checked.var x) sc = Some KRows ->
  Checked.step at_ (PutRow x i y) sc = Ret outs sc' ->
  exists sr', ReleaseMode.step (PutRow x i y) sr = Ret outs sr' /\ related φ sc' sr'.
Proof.
  intros R Hx. simpl. rewrite mbind_unfold.
  destruct (Checked.sptr_at at_ Tsptr (Checked.var x) i sc) as [l s1| |] eqn:A; try done.
  destruct (sim_var_at _ _ _ _ _ _ _ _ _ R A)
    as (-> & k & bc & br & kc & kr & Hk & -> & Ar & Hφ & Hc & Hr & Ak).
  assert (k = KRows) as -> by congruence.
  rewrite mbind_unfold.
  destruct (Checked.var y sc) as [hc s1| |] eqn:V; try done.
  destruct (sim_var _ _ _ _ _ _ R V) as (-> & _ & hr & k & Vr & Ay).
  rewrite mbind_unfold. unfold Checked.wr. cbn [Checked.convert].
  unfold store. rewrite Hc.
  destruct (bool_decide _) eqn:B; [|done].
  rewrite mret_unfold. intros [= <- <-].
  pose proof Ak as (n & Hn & Sc & Sr & Rows).
  apply bool_decide_eq_true in B. simpl in B.
  eexists. split.
  - rewrite (mbind_ret _ _ _ _ _ Ar), (mbind_ret _ _ _ _ _ Vr), mbind_unfold.
    unfold ReleaseMode.wr. cbn [ReleaseMode.convert]. unfold store. rewrite Hr.
    rewrite bool_decide_eq_true_2 by (simpl; lia). by rewrite mret_unfold.
  - apply (related_update φ sc sr bc br KRows); [done|done|by eexists|by eexists|].
    by apply (put_row_agree φ kc kr i hc hr k).
Qed.

(** Fetching a row: the handle in element [i] of the buffer of handles
    behind [x]. *)
Lemma sim_row φ sc sr at_ x i rc sc' :
  related φ sc sr ->
  buffer_kind (snd <$> φ) (Checked.var x) sc = Some KRows ->
  Checked.row at_ (Checked.var x) i sc = Ret rc sc' ->
  sc' = sc /\
  exists rr k, ReleaseMode.row (ReleaseMode.var x) i sr = Ret rr sr /\
    handle_agree φ k rc rr.
Proof.
  intros R Hx. unfold Checked.row. rewrite mbind_unfold.
  destruct (Checked.sptr_at at_ Tsptr (Checked.var x) i sc) as [l s1| |] eqn:A; try done.
  destruct (sim_var_at _ _ _ _ _ _ _ _ _ R A)
    as (-> & k & bc & br & kc & kr & Hk & -> & Ar & Hφ & Hc & Hr & Ak).
  assert (k = KRows) as -> by congruence.
  destruct Ak as (n & Hn & Sc & Sr & Rows & _).
  unfold Checked.rd. rewrite !mbind_unfold. unfold load. rewrite Hc.
  change (Checked.sizeof Tsptr) with 24.
  destruct (bool_decide _) eqn:B; [|done].
  apply bool_decide_eq_true in B.
  specialize (Rows i). unfold row_agree in Rows.
  destruct (bcont kc !! (i * 24)) as [[szc vc]|] eqn:Cc; try done.
  destruct (bcont kr !! (i * 16)) as [[szr vr]|] eqn:Cr; try done.
  destruct Rows as (Ec & Er & Ah). simpl in Ec, Er, Ah. subst szc szr.
  destruct vc as [|hc|], vr as [|hr|]; try done.
  destruct Ah as [k Ah]. cbn [csize cval]. rewrite decide_True by done.
  assert (Checked.has_type Tsptr (Checked.Vsptr hc) = true) as ->
    by (by apply bool_decide_eq_true_2).
  simpl. cbv [mret M_ret ret]. intros [= <- <-]. split; [done|].
  exists hr, k. split; [|done].
  unfold ReleaseMode.row. rewrite (mbind_ret _ _ _ _ _ Ar).
  unfold ReleaseMode.rd. rewrite !mbind_unfold. unfold load. rewrite Hr.
  change (ReleaseMode.sizeof Tsptr) with 16.
  rewrite bool_decide_eq_true_2 by lia. rewrite Cr. cbn [csize cval].
  rewrite decide_True by done.
  assert (ReleaseMode.has_type Tsptr (ReleaseMode.Vsptr hr) = true) as ->
    by (by apply bool_decide_eq_true_2).
  done.
Qed.

Lemma sim_getrow φ sc sr at_ y x i outs sc' :
  related φ sc sr ->
  buffer_kind (snd <$> φ) (Checked.var x) sc = Some KRows ->
  Checked.step at_ (GetRow y x i) sc = Ret outs sc' ->
  exists sr', ReleaseMode.step (GetRow y x i) sr = Ret outs sr' /\ related φ sc' sr'.
Proof.
  intros R Hx. simpl. rewrite mbind_unfold.
  destruct (Checked.row at_ (Checked.var x) i sc) as [rc s1| |] eqn:E; try done.
  destruct (sim_row _ _ _ _ _ _ _ _ R Hx E) as (-> & rr & k & Er & A).
  rewrite mbind_unfold. unfold set_local at 1. rewrite mret_unfold.
  intros [= <- <-]. eexists. split.
  - rewrite (mbind_ret _ _ _ _ _ Er), mbind_unfold. unfold set_local.
    by rewrite mret_unfold.
  - by apply (related_set_local φ sc sr y k).
Qed.

(** Access to an element of a matrix: the nested macro comes down to
    fetching the row and [sptr_at] on it. *)
Lemma sim_mat φ sc sr at_ T x i j l sc' :
  related φ sc sr ->
  buffer_kind (snd <$> φ) (Checked.var x) sc = Some KRows ->
  buffer_kind (snd <$> φ) (Checked.row at_ (Checked.var x) i) sc = Some KBytes ->
  Checked.sptr_mat at_ T (Checked.var x) i j sc = Ret l sc' ->
  sc' = sc /\
  exists bc br kc kr,
    l = Ptr bc (j * Checked.sizeof T) /\
    ReleaseMode.sptr_mat T (ReleaseMode.var x) i j sr
      = Ret (Ptr br (j * ReleaseMode.sizeof T)) sr /\
    φ !! bc = Some (br, KBytes) /\
    heap sc !! bc = Some kc /\ heap sr !! br = Some kr /\ blk_agree φ KBytes kc kr.
Proof.
  intros R Hx Hrow H. unfold Checked.sptr_mat in H.
  destruct (Checked.row at_ (Checked.var x) i sc) as [rc s1| |] eqn:E;
    [|unfold Checked.sptr_at in H; by rewrite mbind_unfold, E in H..].
  destruct (sim_row _ _ _ _ _ _ _ _ R Hx E) as (-> & rr & k & Er & A).
  assert (k = KBytes) as ->.
  { pose proof (buffer_kind_value φ _ sc rc rr k E A). congruence. }
  rewrite (sptr_at_value at_ T _ rc j sc E) in H.
  destruct (sim_handle_at _ _ _ _ _ _ _ _ _ _ _ R A H)
    as (-> & bc & br & kc & kr & -> & Ep & Hφ & Hc & Hr & Ak).
  split; [done|]. exists bc, br, kc, kr. split_and!; try done.
  by apply (release_at T _ rr).
Qed.

Lemma sim_putmat φ sc sr at_ T x i j v outs sc' :
  related φ sc sr -> plain T = true ->
  buffer_kind (snd <$> φ) (Checked.var x) sc = Some KRows ->
  buffer_kind (snd <$> φ) (Checked.row at_ (Checked.var x) i) sc = Some KBytes ->
  Checked.step at_ (PutMat T x i j v) sc = Ret outs sc' ->
  exists sr', ReleaseMode.step (PutMat T x i j v) sr = Ret outs sr' /\
    related φ sc' sr'.
Proof.
  intros R HT Hx Hrow. simpl. rewrite mbind_unfold.
  destruct (Checked.sptr_mat at_ T (Checked.var x) i j sc) as [l s1| |] eqn:A; try done.
  destruct (sim_mat _ _ _ _ _ _ _ _ _ _ R Hx Hrow A)
    as (-> & bc & br & kc & kr & -> & Ar & Hφ & Hc & Hr & Ak).
  rewrite mbind_unfold.
  destruct (Checked.wr T _ _ sc) as [u s2| |] eqn:W; try done.
  destruct (sim_wr_plain _ _ _ _ _ _ _ _ _ _ _ _ R HT Hφ Hc Hr Ak W) as (sr' & Wr & R').
  rewrite mret_unfold. intros [= <- <-]. exists sr'. split; [|done].
  rewrite (mbind_ret _ _ _ _ _ Ar), (plain_sizeof T HT), (mbind_ret _ _ _ _ _ Wr).
  done.
Qed.

Lemma sim_getmat φ sc sr at_ T x i j outs sc' :
  related φ sc sr -> plain T = true ->
  buffer_kind (snd <$> φ) (Checked.var x) sc = Some KRows ->
  buffer_kind (snd <$> φ) (Checked.row at_ (Checked.var x) i) sc = Some KBytes ->
  Checked.step at_ (GetMat T x i j) sc = Ret outs sc' ->
  exists sr', ReleaseMode.step (GetMat T x i j) sr = Ret outs sr' /\
    related φ sc' sr'.
Proof.
  intros R HT Hx Hrow. simpl. rewrite mbind_unfold.
  destruct (Checked.sptr_mat at_ T (Checked.var x) i j sc) as [l s1| |] eqn:A; try done.
  destruct (sim_mat _ _ _ _ _ _ _ _ _ _ R Hx Hrow A)
    as (-> & bc & br & kc & kr & -> & Ar & Hφ & Hc & Hr & Ak).
  intros G.
  destruct (sim_rd_plain _ _ _ _ _ _ _ _ _ _ _ R HT Hφ Hc Hr Ak G) as (-> & Gr).
  exists sr. split; [|done].
  by rewrite (mbind_ret _ _ _ _ _ Ar), (plain_sizeof T HT).
Qed.

(** One statement: what the checked build does without a report, on
    buffers used as they were allocated, the release build does too. *)
Lemma sim_step φ sc sr at_ o outs sc' :
  related φ sc sr -> fits (snd <$> φ) at_ o sc = true ->
  Checked.step at_ o sc = Ret outs sc' ->
  exists φ' sr', ReleaseMode.step o sr = Ret outs sr' /\ related φ' sc' sr' /\
    snd <$> φ' = kinds_after (snd <$> φ) o sc.
Proof.
  intros R W H.
  destruct o as [x T n|x y|T x i v|T x i|x i y|y x i|T x i j v|T x i j|x];
    unfold fits in W; cbn [kinds_after].
  - by apply (sim_alloc φ sc sr at_ x T n).
  - exists φ. destruct (sim_copy φ sc sr at_ x y _ _ R H) as (sr' & ? & ?).
    by exists sr'.
  - apply andb_true_iff in W as [HT HK%bool_decide_eq_true].
    exists φ. destruct (sim_put φ sc sr at_ T x i v _ _ R HT HK H) as (sr' & ? & ?).
    by exists sr'.
  - apply andb_true_iff in W as [HT HK%bool_decide_eq_true].
    exists φ. destruct (sim_get φ sc sr at_ T x i _ _ R HT HK H) as (sr' & ? & ?).
    by exists sr'.
  - apply bool_decide_eq_true in W.
    exists φ. destruct (sim_putrow φ sc sr at_ x i y _ _ R W H) as (sr' & ? & ?).
    by exists sr'.
  - apply bool_decide_eq_true in W.
    exists φ. destruct (sim_getrow φ sc sr at_ y x i _ _ R W H) as (sr' & ? & ?).
    by exists sr'.
  - apply andb_true_iff in W as [[HT HK%bool_decide_eq_true]%andb_true_iff
                                   HR%bool_decide_eq_true].
    exists φ.
    destruct (sim_putmat φ sc sr at_ T x i j v _ _ R HT HK HR H) as (sr' & ? & ?).
    by exists sr'.
  - apply andb_true_iff in W as [[HT HK%bool_decide_eq_true]%andb_true_iff
                                   HR%bool_decide_eq_true].
    exists φ.
    destruct (sim_getmat φ sc sr at_ T x i j _ _ R HT HK HR H) as (sr' & ? & ?).
    by exists sr'.
  - exists φ. destruct (sim_free φ sc sr at_ x _ _ R H) as (sr' & ? & ?).
    by exists sr'.
Qed.

(** Whatever a trace does in the checked build without a report and
    without going wrong, on buffers used as they were allocated, it does
    in the release build, from any pair of related states. *)
Lemma simulation tr : forall φ sc sr k outs sc',
  related φ sc sr -> as_allocated k (snd <$> φ) tr sc = true ->
  Checked.run k tr sc = Ret outs sc' ->
  exists φ' sr', ReleaseMode.run tr sr = Ret outs sr' /\ related φ' sc' sr'.
Proof.
  induction tr as [|o tr IH]; intros φ sc sr k outs sc' R W; simpl.
  - rewrite !mret_unfold. intros [= <- <-]. by exists φ, sr.
  - simpl in W. apply andb_true_iff in W as [Wo W].
    rewrite mbind_unfold.
    destruct (Checked.step (here k) o sc) as [a s1| |] eqn:S; try done.
    destruct (sim_step _ _ _ _ _ _ _ R Wo S) as (φ1 & sr1 & Sr & R1 & K1).
    unfold final in W. rewrite S, <- K1 in W.
    rewrite mbind_unfold.
    destruct (Checked.run (k + 1) tr s1) as [b s2| |] eqn:S2; try done.
    destruct (IH _ _ _ _ _ _ R1 W S2) as (φ2 & sr2 & Sr2 & R2).
    rewrite mret_unfold. intros [= <- <-]. exists φ2, sr2. split; [|done].
    rewrite (mbind_ret _ _ _ _ _ Sr), (mbind_ret _ _ _ _ _ Sr2). done.
Qed.

Lemma related_init (c r : list bool) :
  forallb id r = true -> related ∅ (init c) (init r).
Proof.
  intros Hr. constructor; simpl; try done.
  - by intros b [k ?].
  - by intros b [k ?].
  - by intros ? ? [k ?].
Qed.

(** The release build prints nothing. *)
Lemma quiet_mret {V A} (a : A) : quiet (mret a : M V A).
Proof. intros s a' s'. rewrite mret_unfold. by intros [= _ <-]. Qed.

Lemma quiet_undef {V A} : quiet (undef : M V A).
Proof. by intros s a s'. Qed.

Lemma quiet_bind {V A B} (m : M V A) (k : A -> M V B) :
  quiet m -> (forall a, quiet (k a)) -> quiet (m ≫= k).
Proof.
  intros Hm Hk s b s'. rewrite mbind_unfold.
  destruct (m s) as [a s1| |] eqn:E; try done.
  intros K. rewrite (Hk _ _ _ _ K). by apply (Hm s a).
Qed.

Lemma quiet_malloc {V} sz : quiet (@malloc V sz).
Proof.
  intros s a s'. unfold malloc. destruct (script s) as [|[] ?]; by intros [= _ <-].
Qed.

Lemma quiet_free {V} p : quiet (@free V p).
Proof.
  intros s a s'. unfold free. destruct p as [|b o]; [by intros [= _ <-]|].
  destruct (heap s !! b); [|done]. destruct (decide _); [|done]. by intros [= _ <-].
Qed.

Lemma quiet_load {V} sz p : quiet (@load V sz p).
Proof. intros s a s' E. by rewrite (load_reads_only sz p s a s' E). Qed.

Lemma quiet_store {V} sz p v : quiet (@store V sz p v).
Proof.
  intros s a s'. unfold store. destruct p as [|b o]; [done|].
  destruct (heap s !! b); [|done]. destruct (bool_decide _); [|done].
  by intros [= _ <-].
Qed.

Lemma quiet_get_local {V} x : quiet (@get_local V x).
Proof.
  intros s a s'. unfold get_local. destruct (locals s !! x); [|done].
  by intros [= _ <-].
Qed.

Lemma quiet_set_local {V} x v : quiet (@set_local V x v).
Proof. intros s a s'. unfold set_local. by intros [= _ <-]. Qed.

Ltac quiet_step :=
  first
    [ apply quiet_mret | apply quiet_undef | apply quiet_malloc | apply quiet_free
    | apply quiet_load | apply quiet_store | apply quiet_get_local
    | apply quiet_set_local | apply quiet_bind; [|intros ?] ].

Lemma release_var_quiet x : quiet (ReleaseMode.var x).
Proof.
  unfold ReleaseMode.var. repeat quiet_step.
  unfold ReleaseMode.as_sptr. case_match; quiet_step.
Qed.

Lemma release_rd_quiet T l : quiet (ReleaseMode.rd T l).
Proof. unfold ReleaseMode.rd. repeat quiet_step. case_match; quiet_step. Qed.

Lemma release_wr_quiet T l v : quiet (ReleaseMode.wr T l v).
Proof. unfold ReleaseMode.wr. case_match; quiet_step. Qed.

Lemma release_at_quiet T sp i : quiet sp -> quiet (ReleaseMode.sptr_at T sp i).
Proof. intros Q. unfold ReleaseMode.sptr_at. apply quiet_bind; [done|]. intros ?. quiet_step. Qed.

Lemma release_row_quiet x i : quiet (ReleaseMode.row (ReleaseMode.var x) i).
Proof.
  unfold ReleaseMode.row. apply quiet_bind.
  { apply release_at_quiet, release_var_quiet. }
  intros l. apply quiet_bind; [apply release_rd_quiet|].
  intros v. unfold ReleaseMode.as_sptr. case_match; quiet_step.
Qed.

Lemma release_as_num_quiet v : quiet (ReleaseMode.as_num v).
Proof. unfold ReleaseMode.as_num. case_match; quiet_step. Qed.

Lemma release_step_quiet o : quiet (ReleaseMode.step o).
Proof.
  destruct o; simpl.
  - unfold ReleaseMode.sptr_alloc. repeat quiet_step.
  - repeat quiet_step.
  - apply quiet_bind; [apply release_at_quiet, release_var_quiet|]. intros l.
    apply quiet_bind; [apply release_wr_quiet|]. intros ?. quiet_step.
  - apply quiet_bind; [apply release_at_quiet, release_var_quiet|]. intros l.
    apply quiet_bind; [apply release_rd_quiet|]. intros ?.
    apply quiet_bind; [apply release_as_num_quiet|]. intros ?. quiet_step.
  - apply quiet_bind; [apply release_at_quiet, release_var_quiet|]. intros l.
    apply quiet_bind; [apply release_var_quiet|]. intros ?.
    apply quiet_bind; [apply release_wr_quiet|]. intros ?. quiet_step.
  - apply quiet_bind; [apply release_row_quiet|]. intros ?. repeat quiet_step.
  - apply quiet_bind; [apply release_at_quiet, release_row_quiet|]. intros l.
    apply quiet_bind; [apply release_wr_quiet|]. intros ?. quiet_step.
  - apply quiet_bind; [apply release_at_quiet, release_row_quiet|]. intros l.
    apply quiet_bind; [apply release_rd_quiet|]. intros ?.
    apply quiet_bind; [apply release_as_num_quiet|]. intros ?. quiet_step.
  - apply quiet_bind; [|intros ?; quiet_step].
    unfold ReleaseMode.sptr_free.
    apply quiet_bind; [apply release_var_quiet|]. intros ?. quiet_step.
Qed.

Lemma release_run_quiet tr : quiet (ReleaseMode.run tr).
Proof.
  induction tr as [|o tr IH]; simpl; [apply quiet_mret|].
  apply quiet_bind; [apply release_step_quiet|]. intros a.
  apply quiet_bind; [apply IH|]. intros b. apply quiet_mret.
Qed.

(** C9, as claimed for every trace without a violation: it fails.  In
    [sptr m = sptr_alloc(sptr, 1); sptr_at(struct s, m, 0) = v;] followed
    by a read of [sptr_at(struct s, m, 0)], with a struct of 24 bytes, the
    one index is in bounds, nothing has been released and [malloc] is
    never refused.  The checked build, whose handle has 24 bytes, runs the
    three statements, prints nothing and reads back what was written.  In
    the release build the handle has 16 bytes, so that the buffer has 16,
    and the write of 24 bytes is undefined. *)
Lemma release_mode_differs :
  exists sc,
    Checked.run 1 Demo.misused (init []) = Ret [5] sc /\ stderr sc = [] /\
    ReleaseMode.run Demo.misused (init []) = Undef.
Proof. eexists. split_and!; vm_compute; reflexivity. Qed.

(** C9, amended.  Take a trace of allocations with constant counts,
    copies of handles, reads and writes of elements and of matrix
    elements, rows stored and fetched, and releases, that the checked
    build runs to its end: no report, nothing undefined, no element read
    that was not written.  Let the trace use each buffer as what it was
    allocated for: a buffer from [sptr_alloc(sptr, n)], with [24 * n]
    below 2^64, is accessed at type [sptr] only, and a buffer allocated at
    another type never at type [sptr].  Then the release build, when its
    allocator refuses nothing, runs the trace to its end too and reads the
    same values; neither build has printed.  At the end the buffers allocated
    are paired one to one; a pair is released in both builds or holds the
    same elements in both, the rows of a matrix being handles of paired
    buffers, with the same count once converted to [int]; and the
    variables hold handles of paired buffers. *)
Theorem release_mode_agrees (tr : list op) (c r : list bool) (outs : list Z)
    (sc : state Checked.val) :
  forallb id r = true ->
  as_allocated 1 ∅ tr (init c) = true ->
  Checked.run 1 tr (init c) = Ret outs sc ->
  exists φ sr,
    ReleaseMode.run tr (init r) = Ret outs sr /\ related φ sc sr /\
    stderr sc = [] /\ stderr sr = [].
Proof.
  intros Hr W H.
  destruct (simulation tr ∅ (init c) (init r) 1 outs sc
              (related_init c r Hr)) as (φ & sr & Hrun & R);
    [by rewrite fmap_empty|done|].
  exists φ, sr. pose proof (release_run_quiet tr _ _ _ Hrun) as Q.
  split_and!; try done. by rewrite <- (rel_stderr _ _ _ R).
Qed.

Lemma release_mode_agrees_witness :
  forallb id [] = true /\
  as_allocated 1 ∅ (Demo.scenario ++ Demo.matrix_scenario ++ Demo.nested)
    (init [true; true]) = true /\
  Checked.run 1 (Demo.scenario ++ Demo.matrix_scenario ++ Demo.nested)
      (init [true; true])
    = Ret [42; 7; 11; 12; 33; 44; 5]
          (final (Checked.run 1 (Demo.scenario ++ Demo.matrix_scenario ++ Demo.nested))
                 (init [true; true])) /\
  exists φ sr,
    ReleaseMode.run (Demo.scenario ++ Demo.matrix_scenario ++ Demo.nested) (init [])
      = Ret [42; 7; 11; 12; 33; 44; 5] sr /\
    related φ
      (final (Checked.run 1 (Demo.scenario ++ Demo.matrix_scenario ++ Demo.nested))
             (init [true; true])) sr /\
    stderr (final (Checked.run 1 (Demo.scenario ++ Demo.matrix_scenario ++ Demo.nested))
                  (init [true; true])) = [] /\
    stderr sr = [].
Proof.
  split; [reflexivity|]. split; [by vm_compute|].
  split; [vm_compute; reflexivity|].
  apply (release_mode_agrees (Demo.scenario ++ Demo.matrix_scenario ++ Demo.nested)
           [true; true] [] [42; 7; 11; 12; 33; 44; 5]);
    [reflexivity | by vm_compute | vm_compute; reflexivity].
Defined.
End Simulation.

(** ** What the checked macros do in every state *)

Section Outcomes.
Import Checked CheckedFacts.

Lemma flag_zero_test h s : flag_zero h s = true -> flag_test (mret h) s = Ret false s.
Proof.
  unfold flag_zero, flag_test. intros F.
  rewrite (mbind_ret (mret h) _ s h s eq_refl).
  destruct (isf h) as [|bf o] eqn:Ef; [done|].
  rewrite !mbind_unfold. unfold load.
  destruct (heap s !! bf) as [kf|]; [|done].
  apply andb_true_iff in F as [-> F].
  destruct (bcont kf !! o) as [[sz [c| |]]|]; try done.
  all: assert (Hs : sz = 1) by (by destruct sz as [|[]|]); subst sz; try done.
  apply bool_decide_eq_true in F as ->. simpl.
  by rewrite (mbind_ret (mret h) _ s h s eq_refl), mret_unfold, Ef.
Qed.

Lemma flag_test_otherwise h s :
  flag_raised h s = false -> flag_zero h s = false -> flag_test (mret h) s = Undef.
Proof.
  unfold flag_raised, flag_zero, flag_test. intros R Z.
  rewrite (mbind_ret (mret h) _ s h s eq_refl).
  destruct (isf h) as [|bf o]; [done|].
  rewrite !mbind_unfold. unfold load.
  destruct (heap s !! bf) as [kf|]; [|done].
  destruct (bool_decide (0 <= o /\ o + 1 <= bsize kf)); [|done].
  destruct (bcont kf !! o) as [[sz v]|]; [|done]. cbn [csize cval].
  destruct (decide (sz = 1)) as [->|]; [|done].
  destruct v as [c| |]; try done.
  simpl in *. destruct (decide (c = 0)) as [->|Hc].
  - by rewrite bool_decide_eq_true_2 in Z.
  - by rewrite bool_decide_eq_true_2 in R.
Qed.

(** X3.  The whole of [sptr_at] on a handle value, for an index a C
    integer can hold: an index outside [0, size) is reported as out of
    range; otherwise a flag cell that is allocated and not zero is reported
    as use after free; otherwise, if the cell is allocated and zero, the
    pointer to the element is returned and the state is unchanged; in any
    other case (null or dangling flag pointer, no [char] written to the
    cell) the macro is undefined. *)
Theorem sptr_at_outcomes (at_ : site) (T : ctype) (h : sptr) (i : Z) (s : state val) :
  i < 2 ^ 64 ->
  sptr_at at_ T (mret h) i s =
    if negb (bool_decide (0 <= i < size h)) then
      Exit 1 (reported at_ IndexOutOfRange s)
    else if flag_raised h s then Exit 1 (reported at_ UseAfterFree s)
    else if flag_zero h s then Ret (ptr_add (ptr h) (i * sizeof T)) s
    else Undef.
Proof.
  intros Hi. unfold sptr_at.
  rewrite (mbind_ret (mret h) _ s h s eq_refl), (bounds_test _ _ Hi).
  destruct (negb _); [done|].
  destruct (flag_raised h s) eqn:R.
  { by rewrite (mbind_ret _ _ _ _ _ (flag_raised_test h s R)). }
  destruct (flag_zero h s) eqn:Z.
  { rewrite (mbind_ret _ _ _ _ _ (flag_zero_test h s Z)).
    by rewrite (mbind_ret (mret h) _ s h s eq_refl). }
  by rewrite mbind_unfold, (flag_test_otherwise h s R Z).
Qed.

Lemma sptr_at_outcomes_witness :
  7 < 2 ^ 64 /\
  sptr_at (here 8) Tint (mret Demo.h_two) 7 Demo.s_two =
    if negb (bool_decide (0 <= 7 < size Demo.h_two)) then
      Exit 1 (reported (here 8) IndexOutOfRange Demo.s_two)
    else if flag_raised Demo.h_two Demo.s_two then
      Exit 1 (reported (here 8) UseAfterFree Demo.s_two)
    else if flag_zero Demo.h_two Demo.s_two then
      Ret (ptr_add (ptr Demo.h_two) (7 * sizeof Tint)) Demo.s_two
    else Undef.
Proof.
  split; [lia|]. apply (sptr_at_outcomes (here 8) Tint Demo.h_two 7 Demo.s_two). lia.
Defined.

(** X2.  The whole of [sptr_alloc], by the allocator's two answers.  The
    macro asks twice whatever the first answer is.  Both granted: it
    returns the handle of the two fresh blocks.  First refused, second
    granted: it reports and exits, the flag cell allocated and initialised.
    Second refused: it is undefined. *)
Theorem sptr_alloc_outcomes (at_ : site) (T : ctype) (e : text) (s : state val) :
  match sptr_alloc at_ T e s with
  | Ret h s' =>
      grants 2 (script s) = true /\ h = fresh_handle e s /\ s' = with_fresh T e s
  | Exit c s' =>
      c = 1 /\ grants 1 (script s) = false /\ grants 1 (tail (script s)) = true /\
      script s' = drop 2 (script s) /\
      heap s' = <[next s := Blk 1 {[0 := Cell 1 (Vint 0)]}]> (heap s) /\
      stderr s' = stderr s ++ [Diag (s_file at_) (s_line at_) (message AllocationFailure)]
  | Undef => grants 1 (tail (script s)) = false
  end.
Proof.
  destruct (script s) as [|[] [|[] rest]] eqn:E.
  - rewrite sptr_alloc_ok by (by rewrite E). done.
  - rewrite sptr_alloc_ok by (by rewrite E). done.
  - rewrite sptr_alloc_ok by (by rewrite E). done.
  - by rewrite (sptr_alloc_flag_refused at_ T e s true rest E).
  - rewrite (sptr_alloc_buffer_refused at_ T e s [] E eq_refl). done.
  - rewrite (sptr_alloc_buffer_refused at_ T e s (true :: rest) E eq_refl).
    done.
  - by rewrite (sptr_alloc_flag_refused at_ T e s false rest E).
Qed.

Lemma flag_test_never_exits h s c s' : flag_test (mret h) s ≠ Exit c s'.
Proof.
  destruct (flag_raised h s) eqn:R.
  { by rewrite (flag_raised_test h s R). }
  destruct (flag_zero h s) eqn:Z.
  { by rewrite (flag_zero_test h s Z). }
  by rewrite (flag_test_otherwise h s R Z).
Qed.

Lemma store_quiet sz p v (s : state val) :
  match store sz p v s with
  | Ret _ s' => stderr s' = stderr s
  | Exit _ _ => False
  | Undef => True
  end.
Proof.
  unfold store. destruct p as [|b o]; [done|].
  destruct (heap s !! b); [|done]. by destruct (bool_decide _).
Qed.

Lemma free_quiet p (s : state val) :
  match free p s with
  | Ret _ s' => stderr s' = stderr s
  | Exit _ _ => False
  | Undef => True
  end.
Proof.
  unfold free. destruct p as [|b o]; [done|].
  destruct (heap s !! b); [|done]. by destruct (decide _).
Qed.

Lemma sptr_alloc_quiet_or_located at_ T e s :
  quiet_or_located at_ s (sptr_alloc at_ T e s).
Proof.
  destruct (script s) as [|[] [|[] rest]] eqn:E.
  - rewrite sptr_alloc_ok by (by rewrite E). done.
  - rewrite sptr_alloc_ok by (by rewrite E). done.
  - rewrite sptr_alloc_ok by (by rewrite E). done.
  - by rewrite (sptr_alloc_flag_refused at_ T e s true rest E).
  - rewrite (sptr_alloc_buffer_refused at_ T e s [] E eq_refl).
    split; [done|]. by exists AllocationFailure.
  - rewrite (sptr_alloc_buffer_refused at_ T e s (true :: rest) E eq_refl).
    split; [done|]. by exists AllocationFailure.
  - by rewrite (sptr_alloc_flag_refused at_ T e s false rest E).
Qed.

Lemma sptr_free_quiet_or_located at_ h s :
  quiet_or_located at_ s (sptr_free at_ (mret h) s).
Proof.
  unfold sptr_free. rewrite mbind_unfold.
  destruct (flag_test (mret h) s) as [d s1|c s1|] eqn:F;
    [|by apply flag_test_never_exits in F|done].
  apply flag_test_reads_only in F as ->. destruct d.
  - simpl. split; [done|]. by exists DoubleFree.
  - rewrite (mbind_ret (mret h) _ s h s eq_refl), mbind_unfold.
    pose proof (store_quiet 1 (isf h) (Vint 1) s) as Q1.
    destruct (store 1 (isf h) (Vint 1) s) as [[] s1| |]; try done.
    rewrite (mbind_ret (mret h) _ s1 h s1 eq_refl), mbind_unfold.
    pose proof (free_quiet (ptr h) s1) as Q2.
    destruct (free (ptr h) s1) as [[] s2| |]; try done.
    rewrite (mbind_ret (mret h) _ s2 h s2 eq_refl).
    pose proof (free_quiet (isf h) s2) as Q3.
    destruct (free (isf h) s2) as [[] s3| |]; try done.
    simpl. congruence.
Qed.

(** X1.  The checked macros print exactly when they leave the process:
    when [sptr_alloc], [sptr_at] or [sptr_free] returns, [stderr] is as it
    was; when one exits, the status is 1 and [stderr] has one more line,
    which carries the file and the line of the expansion and one of the
    four messages.  [sptr_at] changes nothing else in either case. *)
Theorem checked_macros_quiet_or_located (at_ : site) (T : ctype) (e : text)
    (h : sptr) (i : Z) (s : state val) :
  quiet_or_located at_ s (sptr_alloc at_ T e s) /\
  quiet_or_located at_ s (sptr_at at_ T (mret h) i s) /\
  quiet_or_located at_ s (sptr_free at_ (mret h) s) /\
  match sptr_at at_ T (mret h) i s with
  | Ret _ s' => s' = s
  | Exit _ s' =>
      heap s' = heap s /\ next s' = next s /\ script s' = script s /\
      locals s' = locals s
  | Undef => True
  end.
Proof.
  split_and!.
  - apply sptr_alloc_quiet_or_located.
  - unfold sptr_at. rewrite (mbind_ret (mret h) _ s h s eq_refl).
    destruct (orb _ _).
    { simpl. split; [done|]. by exists IndexOutOfRange. }
    rewrite mbind_unfold.
    destruct (flag_test (mret h) s) as [d s1|c s1|] eqn:F;
      [|by apply flag_test_never_exits in F|done].
    apply flag_test_reads_only in F as ->. destruct d; [|done].
    simpl. split; [done|]. by exists UseAfterFree.
  - apply sptr_free_quiet_or_located.
  - unfold sptr_at. rewrite (mbind_ret (mret h) _ s h s eq_refl).
    destruct (orb _ _); [done|].
    rewrite mbind_unfold.
    destruct (flag_test (mret h) s) as [d s1|c s1|] eqn:F;
      [|by apply flag_test_never_exits in F|done].
    apply flag_test_reads_only in F as ->. by destruct d.
Qed.
End Outcomes.

(** ** Handles side by side *)

Section Frames.
Import Checked CheckedFacts.

Lemma flag_clear_agree h s s' :
  agree_at (isf h) s s' -> flag_clear h s' = flag_clear h s.
Proof.
  intros A. unfold flag_clear. destruct (isf h) as [|bf o]; [done|].
  by rewrite (A bf eq_refl).
Qed.

Lemma buffer_of_agree h s s' :
  agree_at (ptr h) s s' -> buffer_of h s' = buffer_of h s.
Proof.
  intros A. unfold buffer_of. destruct (ptr h) as [|bp o]; [done|].
  by rewrite (A bp eq_refl).
Qed.

Lemma live_handle_agree T h s s' :
  agree_at (ptr h) s s' -> agree_at (isf h) s s' ->
  live_handle T h s' = live_handle T h s.
Proof.
  intros Ap Af. unfold live_handle.
  by rewrite (flag_clear_agree h s s' Af), (buffer_of_agree h s s' Ap).
Qed.

Lemma releasable_agree h s s' :
  agree_at (ptr h) s s' -> agree_at (isf h) s s' ->
  releasable h s' = releasable h s.
Proof.
  intros Ap Af. unfold releasable.
  by rewrite (flag_clear_agree h s s' Af), (buffer_of_agree h s s' Ap).
Qed.

Lemma load_agree sz p d (s s' : state val) :
  agree_at p s s' -> value (load sz (ptr_add p d) s') = value (load sz (ptr_add p d) s).
Proof.
  intros A. unfold load. destruct p as [|b o]; [done|]. simpl.
  rewrite (A b eq_refl). destruct (heap s !! b) as [k|]; [|done].
  destruct (bool_decide _); [|done].
  destruct (bcont k !! (o + d)) as [c|]; [|done]. by destruct (decide _).
Qed.

Lemma rd_agree T p d (s s' : state val) :
  agree_at p s s' -> value (rd T (ptr_add p d) s') = value (rd T (ptr_add p d) s).
Proof.
  intros A. pose proof (load_agree (sizeof T) p d s s' A) as L.
  unfold rd. rewrite !mbind_unfold.
  destruct (load (sizeof T) (ptr_add p d) s') as [v1 s1| |],
           (load (sizeof T) (ptr_add p d) s) as [v2 s2| |]; simpl in L; try done.
  - injection L as ->. by destruct (has_type T v2).
Qed.

Lemma written_agree T h i v s p :
  block_of p ≠ block_of (ptr h) -> agree_at p s (written T h i v s).
Proof.
  intros Hne b Hb. unfold written. destruct (ptr h) as [|bp o]; [done|].
  destruct (heap s !! bp); [|done]. simpl in *.
  rewrite lookup_insert_ne; [done|]. congruence.
Qed.

Lemma released_agree h s p :
  block_of p ≠ block_of (ptr h) -> block_of p ≠ block_of (isf h) ->
  agree_at p s (released h s).
Proof.
  intros H1 H2 b Hb. unfold released.
  destruct (ptr h) as [|bp o]; [done|]. destruct (isf h) as [|bf o']; [done|].
  simpl in *. rewrite !lookup_delete_ne; [done|congruence..].
Qed.

(** Writing an element of a live handle, as a state. *)
Lemma put_element at_ T h i v w s :
  live_handle T h s = true -> size h < 2 ^ 64 -> 0 <= i < size h ->
  convert T v = Some w ->
  (l ← sptr_at at_ T (mret h) i; wr T l v) s = Ret tt (written T h i w s).
Proof.
  intros L Hm Hi Hc.
  destruct (live_handle_inv _ _ _ L) as (bp & bf & kp & kf & Ep & Ef & Hne & Hp & Hf & Hs & ? & ?).
  rewrite (mbind_ret _ _ _ _ _
    (sptr_at_in_range at_ T h i s (live_handle_flag_clear _ _ _ L) Hi ltac:(lia))).
  rewrite (wr_element T h i v w s bp kp Ep Hp Hs Hi Hc).
  unfold written. by rewrite Ep, Hp.
Qed.

Lemma get_written at_ T h i v s :
  live_handle T h s = true -> size h < 2 ^ 64 -> 0 <= i < size h ->
  has_type T v = true ->
  live_handle T h (written T h i v s) = true /\
  (l ← sptr_at at_ T (mret h) i; rd T l) (written T h i v s)
    = Ret v (written T h i v s).
Proof.
  intros L Hm Hi Ht.
  destruct (live_handle_inv _ _ _ L) as (bp & bf & kp & kf & Ep & Ef & Hne & Hp & Hf & Hs & ? & ?).
  assert (L' : live_handle T h (written T h i v s) = true).
  { unfold live_handle. apply andb_true_iff. split.
    - rewrite (flag_clear_agree h s); [by apply (live_handle_flag_clear T)|].
      apply written_agree. rewrite Ep, Ef. simpl. congruence.
    - unfold buffer_of, written. rewrite Ep, Hp, Ef.
      rewrite decide_True by (split; [done|congruence]).
      cbn [set_heap heap]. rewrite lookup_insert_eq.
      by apply bool_decide_eq_true_2. }
  split; [done|].
  rewrite (mbind_ret _ _ _ _ _
    (sptr_at_in_range at_ T h i _ (live_handle_flag_clear _ _ _ L') Hi ltac:(lia))).
  unfold rd. rewrite mbind_unfold.
  unfold load, written. rewrite Ep, Hp. cbn [ptr_add set_heap heap].
  rewrite Z.add_0_l, lookup_insert_eq. cbn [bsize put].
  pose proof (sizeof_pos T).
  rewrite bool_decide_eq_true_2 by nia. rewrite put_lookup. cbn [csize cval].
  rewrite decide_True by done. by rewrite Ht.
Qed.

(** X5.  Handles do not interfere: a write through a live handle [h], of
    any value that can be assigned to the element type, leaves every live
    handle [g] whose buffer and flag cell are other blocks than the buffer
    of [h] live, and every element of [g], read at any type, as it was. *)
Theorem write_leaves_other_handles (at_ : site) (T T' : ctype) (h g : sptr)
    (i : Z) (v : val) (s : state val) :
  live_handle T h s = true -> size h < 2 ^ 64 -> 0 <= i < size h ->
  live_handle T' g s = true -> apart h g = true ->
  is_Some (convert T v) ->
  exists s',
    (l ← sptr_at at_ T (mret h) i; wr T l v) s = Ret tt s' /\
    live_handle T' g s' = true /\
    forall T'' j,
      value (rd T'' (ptr_add (ptr g) (j * sizeof T'')) s')
      = value (rd T'' (ptr_add (ptr g) (j * sizeof T'')) s).
Proof.
  intros L Hm Hi Lg [H1 H2]%bool_decide_eq_true [w Hc].
  exists (written T h i w s). split_and!.
  - by apply put_element.
  - rewrite (live_handle_agree T' g s); [done| |]; by apply written_agree.
  - intros T'' j. apply rd_agree. by apply written_agree.
Qed.

Lemma write_leaves_other_handles_witness :
  live_handle Tint Samples.h_a Samples.s_ab = true /\
  size Samples.h_a < 2 ^ 64 /\ 0 <= 3 < size Samples.h_a /\
  live_handle Tint Samples.h_b Samples.s_ab = true /\
  apart Samples.h_a Samples.h_b = true /\
  is_Some (convert Tint (Vint 5)) /\
  exists s',
    (l ← sptr_at (here 4) Tint (mret Samples.h_a) 3; wr Tint l (Vint 5)) Samples.s_ab
      = Ret tt s' /\
    live_handle Tint Samples.h_b s' = true /\
    forall T'' j,
      value (rd T'' (ptr_add (ptr Samples.h_b) (j * sizeof T'')) s')
      = value (rd T'' (ptr_add (ptr Samples.h_b) (j * sizeof T'')) Samples.s_ab).
Proof.
  split; [by vm_compute|]. split; [by vm_compute|]. split; [by vm_compute|].
  split; [by vm_compute|]. split; [by vm_compute|]. split; [by eexists|].
  apply (write_leaves_other_handles (here 4) Tint Tint Samples.h_a Samples.h_b 3
           (Vint 5) Samples.s_ab); [by vm_compute..|by eexists].
Defined.
Lemma names_fresh_lookup s b :
  names_fresh s = true -> is_Some (heap s !! b) -> (b < next s)%positive.
Proof.
  intros F%bool_decide_eq_true [k Hb]. by apply (map_Forall_lookup_1 _ _ _ _ F Hb).
Qed.

Lemma with_fresh_names_fresh T e s :
  names_fresh s = true -> names_fresh (with_fresh T e s) = true.
Proof.
  intros F%bool_decide_eq_true. apply bool_decide_eq_true_2. simpl.
  apply map_Forall_insert_2; [lia|]. apply map_Forall_insert_2; [lia|].
  eapply map_Forall_impl; [exact F|]. simpl. intros. lia.
Qed.

Lemma with_fresh_agree T e s p :
  names_fresh s = true ->
  (forall b, block_of p = Some b -> is_Some (heap s !! b)) ->
  agree_at p s (with_fresh T e s).
Proof.
  intros F A b Hb. pose proof (names_fresh_lookup s b F (A b Hb)). simpl.
  rewrite !lookup_insert_ne by lia. done.
Qed.

(** X6.  [sptr_alloc], whatever the text of its count, leaves the handles
    there are alone: in a state whose
    allocated blocks were all named before [next], a granted allocation
    keeps every live handle [g] live with its elements as they were, and
    the new handle has no block in common with [g]. *)
Theorem sptr_alloc_keeps_handles (at_ : site) (T T' : ctype) (e : text) (g : sptr)
    (s : state val) :
  names_fresh s = true -> grants 2 (script s) = true ->
  live_handle T' g s = true ->
  exists h s',
    sptr_alloc at_ T e s = Ret h s' /\
    names_fresh s' = true /\
    live_handle T' g s' = true /\
    separate h g = true /\
    forall T'' j,
      value (rd T'' (ptr_add (ptr g) (j * sizeof T'')) s')
      = value (rd T'' (ptr_add (ptr g) (j * sizeof T'')) s).
Proof.
  intros F G L. exists (fresh_handle e s), (with_fresh T e s).
  destruct (live_handle_inv _ _ _ L) as (bp & bf & kp & kf & Ep & Ef & Hne & Hp & Hf & _).
  assert (Ap : agree_at (ptr g) s (with_fresh T e s)).
  { apply with_fresh_agree; [done|]. rewrite Ep. intros b [= <-]. by eexists. }
  assert (Af : agree_at (isf g) s (with_fresh T e s)).
  { apply with_fresh_agree; [done|]. rewrite Ef. intros b [= <-]. by eexists. }
  assert (bp < next s)%positive by (apply names_fresh_lookup; [done|by eexists]).
  assert (bf < next s)%positive by (apply names_fresh_lookup; [done|by eexists]).
  split_and!.
  - by apply sptr_alloc_ok.
  - by apply with_fresh_names_fresh.
  - by rewrite (live_handle_agree T' g s).
  - apply bool_decide_eq_true_2. rewrite Ep, Ef. simpl.
    split_and!; intros [= E]; lia.
  - intros T'' j. by apply rd_agree.
Qed.

Lemma sptr_alloc_keeps_handles_witness :
  names_fresh Samples.s_ab = true /\ grants 2 (script Samples.s_ab) = true /\
  live_handle Tint Samples.h_b Samples.s_ab = true /\
  exists h s',
    sptr_alloc (here 5) Tlong (Prim 3) Samples.s_ab = Ret h s' /\
    names_fresh s' = true /\
    live_handle Tint Samples.h_b s' = true /\
    separate h Samples.h_b = true /\
    forall T'' j,
      value (rd T'' (ptr_add (ptr Samples.h_b) (j * sizeof T'')) s')
      = value (rd T'' (ptr_add (ptr Samples.h_b) (j * sizeof T'')) Samples.s_ab).
Proof.
  split; [by vm_compute|]. split; [by vm_compute|]. split; [by vm_compute|].
  apply (sptr_alloc_keeps_handles (here 5) Tlong Tint (Prim 3) Samples.h_b Samples.s_ab);
    by vm_compute.
Defined.

(** X4.  The bounds test of [sptr_at] counts elements, not bytes.  When
    element [i] at type [T'] does not fit in the bytes [sptr_alloc(T, e)]
    asked [malloc] for, because [sizeof(T) * e] wrapped, because the text
    [e] is not multiplied as a whole, or because [T'] is wider than [T], an
    index below the count still passes both tests:
    [sptr_at] returns a pointer past the buffer without a report, and the
    read or the write through it is undefined. *)
Theorem bounds_count_elements_not_bytes (at_ at' : site) (T T' : ctype)
    (e : text) (i : Z) (v : val) (s : state val) :
  grants 2 (script s) = true ->
  0 <= i < to_size_t (count e) ->
  to_size_t (pasted (sizeof T) e) < (i + 1) * sizeof T' ->
  exists h s',
    sptr_alloc at_ T e s = Ret h s' /\
    sptr_at at' T' (mret h) i s' = Ret (ptr_add (ptr h) (i * sizeof T')) s' /\
    wr T' (ptr_add (ptr h) (i * sizeof T')) v s' = Undef /\
    rd T' (ptr_add (ptr h) (i * sizeof T')) s' = Undef.
Proof.
  intros G Hi Hw. exists (fresh_handle e s), (with_fresh T e s).
  assert (to_size_t (count e) < 2 ^ 64)
    by (unfold to_size_t; apply Z.mod_pos_bound; lia).
  assert (Hb : heap (with_fresh T e s) !! next s
               = Some (Blk (to_size_t (pasted (sizeof T) e)) ∅)).
  { simpl. rewrite lookup_insert_ne by lia. apply lookup_insert_eq. }
  split_and!.
  - by apply sptr_alloc_ok.
  - apply sptr_at_in_range; [apply fresh_flag_clear|done|lia].
  - unfold wr. destruct (convert T' v); [|done].
    unfold store. cbn [fresh_handle ptr ptr_add]. rewrite Hb. cbn [bsize].
    rewrite bool_decide_eq_false_2; [done|lia].
  - unfold rd. rewrite mbind_unfold.
    unfold load. cbn [fresh_handle ptr ptr_add]. rewrite Hb. cbn [bsize].
    rewrite bool_decide_eq_false_2; [done|lia].
Qed.

Lemma bounds_count_elements_not_bytes_witness :
  grants 2 (script (init [] : state val)) = true /\
  0 <= 0 < to_size_t (count (Prim (2 ^ 61))) /\
  to_size_t (pasted (sizeof Tlong) (Prim (2 ^ 61))) < (0 + 1) * sizeof Tlong /\
  exists h s',
    sptr_alloc (here 1) Tlong (Prim (2 ^ 61)) (init []) = Ret h s' /\
    sptr_at (here 2) Tlong (mret h) 0 s' = Ret (ptr_add (ptr h) (0 * sizeof Tlong)) s' /\
    wr Tlong (ptr_add (ptr h) (0 * sizeof Tlong)) (Vint 1) s' = Undef /\
    rd Tlong (ptr_add (ptr h) (0 * sizeof Tlong)) s' = Undef.
Proof.
  split; [reflexivity|]. split; [by vm_compute|]. split; [by vm_compute|].
  apply (bounds_count_elements_not_bytes (here 1) (here 2) Tlong Tlong (Prim (2 ^ 61)) 0
           (Vint 1) (init [])); by vm_compute.
Defined.
(** X13.  Allocation followed by release leaves no trace: in a state whose
    allocated blocks were all named before [next], when both requests are
    granted, [sptr_free] on the handle [sptr_alloc] returned succeeds and
    the heap, the variables and [stderr] are what they were before the
    allocation. *)
Theorem alloc_then_free_restores (at_ at' : site) (T : ctype) (e : text) (s : state val) :
  names_fresh s = true -> grants 2 (script s) = true ->
  exists s',
    (h ← sptr_alloc at_ T e; sptr_free at' (mret h)) s = Ret tt s' /\
    heap s' = heap s /\ locals s' = locals s /\ stderr s' = stderr s.
Proof.
  intros F G. exists (released (fresh_handle e s) (with_fresh T e s)).
  split.
  - rewrite (mbind_ret _ _ _ _ _ (sptr_alloc_ok at_ T e s G)).
    apply sptr_free_releasable, fresh_releasable.
  - split; [|done]. simpl.
    assert (N1 : heap s !! next s = None).
    { destruct (heap s !! next s) eqn:E; [|done].
      assert (next s < next s)%positive by (apply names_fresh_lookup; [done|by eexists]).
      lia. }
    assert (N2 : heap s !! Pos.succ (next s) = None).
    { destruct (heap s !! Pos.succ (next s)) eqn:E; [|done].
      assert (Pos.succ (next s) < next s)%positive
        by (apply names_fresh_lookup; [done|by eexists]).
      lia. }
    rewrite (delete_insert_ne _ (next s) (Pos.succ (next s))) by lia.
    rewrite (delete_insert_eq _ (next s)), (delete_id _ (next s) N1).
    rewrite delete_insert_eq. by apply delete_id.
Qed.

Lemma alloc_then_free_restores_witness :
  names_fresh Samples.s_ab = true /\ grants 2 (script Samples.s_ab) = true /\
  exists s',
    (h ← sptr_alloc (here 5) Tlong (Prim 3); sptr_free (here 6) (mret h)) Samples.s_ab
      = Ret tt s' /\
    heap s' = heap Samples.s_ab /\ locals s' = locals Samples.s_ab /\
    stderr s' = stderr Samples.s_ab.
Proof.
  split; [by vm_compute|]. split; [by vm_compute|].
  apply (alloc_then_free_restores (here 5) (here 6) Tlong (Prim 3) Samples.s_ab);
    by vm_compute.
Defined.
End Frames.

(** ** Matrices *)

Section Matrices.
Import Checked CheckedFacts.

(** The row expression of [sptr_mat] on a live matrix. *)
Lemma row_value at_ m i r s :
  flag_clear m s = true -> 0 <= i < size m -> i < 2 ^ 64 ->
  holds_row m i r s = true ->
  row at_ (mret m) i s = Ret r s.
Proof.
  intros F Hi Hi' H%bool_decide_eq_true. unfold row.
  rewrite (mbind_ret _ _ _ _ _ (sptr_at_in_range at_ Tsptr m i s F Hi Hi')).
  rewrite mbind_unfold.
  destruct (rd Tsptr (ptr_add (ptr m) (i * sizeof Tsptr)) s) as [v s1| |] eqn:E;
    try done.
  simpl in H. injection H as ->.
  by apply rd_reads_only in E as ->.
Qed.

Lemma holds_row_agree m i r s s' :
  agree_at (ptr m) s s' -> holds_row m i r s' = holds_row m i r s.
Proof.
  intros A. unfold holds_row. by rewrite (rd_agree _ _ _ s s' A).
Qed.

(** X7.  Each row of a matrix has its own bound: on a matrix whose flag
    is clear and whose element [i] holds the handle [r], a column index
    outside [0, size r) is reported as out of range, whatever the state of
    the row, and nothing else changes. *)
Theorem matrix_column_out_of_range (at_ : site) (T : ctype) (m r : sptr)
    (i j : Z) (s : state val) :
  flag_clear m s = true -> 0 <= i < size m -> i < 2 ^ 64 ->
  holds_row m i r s = true ->
  j < 2 ^ 64 -> ~ (0 <= j < size r) ->
  fails_with at_ IndexOutOfRange s (sptr_mat at_ T (mret m) i j s).
Proof.
  intros F Hi Hi' H Hj Hr. unfold fails_with.
  rewrite sptr_mat_by_value, (mbind_ret _ _ _ _ _ (row_value at_ m i r s F Hi Hi' H)).
  by apply sptr_at_out_of_range.
Qed.

Lemma matrix_column_out_of_range_witness :
  flag_clear Samples.h_m Samples.s_m = true /\
  0 <= 1 < size Samples.h_m /\ 1 < 2 ^ 64 /\
  holds_row Samples.h_m 1 Samples.h_r1 Samples.s_m = true /\
  4 < 2 ^ 64 /\ ~ (0 <= 4 < size Samples.h_r1) /\
  fails_with (here 7) IndexOutOfRange Samples.s_m
    (sptr_mat (here 7) Tint (mret Samples.h_m) 1 4 Samples.s_m).
Proof.
  assert (N : ~ (0 <= 4 < size Samples.h_r1)) by (vm_compute; intros [_ ?]; done).
  split; [by vm_compute|]. split; [by vm_compute|]. split; [lia|].
  split; [by vm_compute|]. split; [lia|]. split; [exact N|].
  apply (matrix_column_out_of_range (here 7) Tint Samples.h_m Samples.h_r1 1 4
           Samples.s_m); [by vm_compute|by vm_compute|lia|by vm_compute|lia|exact N].
Defined.

(** X8.  Elements of a matrix read back what was written: on a matrix
    whose flag is clear and whose element [i] holds a live row [r] with a
    buffer that is neither the buffer nor the flag cell of the matrix,
    writing [v] through [sptr_mat(T, m, i, j)] at a column in range stores
    [v] converted to [T], and reading [sptr_mat(T, m, i, j)] again yields
    that: [v] itself when [v] is a value of type [T].  The matrix still
    holds the row. *)
Theorem matrix_write_then_read (at_ at' : site) (T : ctype) (m r : sptr)
    (i j : Z) (v w : val) (s : state val) :
  flag_clear m s = true -> 0 <= i < size m -> i < 2 ^ 64 ->
  holds_row m i r s = true ->
  live_handle T r s = true -> size r < 2 ^ 64 -> 0 <= j < size r ->
  apart r m = true ->
  convert T v = Some w ->
  exists s',
    (l ← sptr_mat at_ T (mret m) i j; wr T l v) s = Ret tt s' /\
    (l ← sptr_mat at' T (mret m) i j; rd T l) s' = Ret w s' /\
    (has_type T v = true -> w = v) /\
    flag_clear m s' = true /\ holds_row m i r s' = true.
Proof.
  intros F Hi Hi' H L Hm Hj [A1 A2]%bool_decide_eq_true Hc.
  exists (written T r j w s).
  assert (F' : flag_clear m (written T r j w s) = true).
  { rewrite (flag_clear_agree m s); [done|]. apply written_agree. congruence. }
  assert (H' : holds_row m i r (written T r j w s) = true).
  { rewrite (holds_row_agree m i r s); [done|]. apply written_agree. congruence. }
  destruct (get_written at' T r j w s L Hm Hj (convert_has_type T v w Hc)) as [L' G].
  split_and!; try done.
  - rewrite mbind_unfold, sptr_mat_by_value.
    rewrite (mbind_ret _ _ _ _ _ (row_value at_ m i r s F Hi Hi' H)).
    rewrite <- (put_element at_ T r j v w s L Hm Hj Hc). by rewrite mbind_unfold.
  - rewrite mbind_unfold, sptr_mat_by_value.
    rewrite (mbind_ret _ _ _ _ _ (row_value at' m i r _ F' Hi Hi' H')).
    rewrite <- G. by rewrite mbind_unfold.
  - intros Ht. apply has_type_convert in Ht. congruence.
Qed.

Lemma matrix_write_then_read_witness :
  flag_clear Samples.h_m Samples.s_m = true /\
  0 <= 1 < size Samples.h_m /\ 1 < 2 ^ 64 /\
  holds_row Samples.h_m 1 Samples.h_r1 Samples.s_m = true /\
  live_handle Tint Samples.h_r1 Samples.s_m = true /\
  size Samples.h_r1 < 2 ^ 64 /\ 0 <= 0 < size Samples.h_r1 /\
  apart Samples.h_r1 Samples.h_m = true /\
  convert Tint (Vint (2 ^ 32 + 8)) = Some (Vint 8) /\
  exists s',
    (l ← sptr_mat (here 7) Tint (mret Samples.h_m) 1 0; wr Tint l (Vint (2 ^ 32 + 8)))
      Samples.s_m = Ret tt s' /\
    (l ← sptr_mat (here 8) Tint (mret Samples.h_m) 1 0; rd Tint l) s' = Ret (Vint 8) s' /\
    (has_type Tint (Vint (2 ^ 32 + 8)) = true -> Vint 8 = Vint (2 ^ 32 + 8)) /\
    flag_clear Samples.h_m s' = true /\
    holds_row Samples.h_m 1 Samples.h_r1 s' = true.
Proof.
  split; [by vm_compute|]. split; [by vm_compute|]. split; [lia|].
  split; [by vm_compute|]. split; [by vm_compute|]. split; [by vm_compute|].
  split; [by vm_compute|]. split; [by vm_compute|]. split; [by vm_compute|].
  apply (matrix_write_then_read (here 7) (here 8) Tint Samples.h_m Samples.h_r1 1 0
           (Vint (2 ^ 32 + 8)) (Vint 8) Samples.s_m); by vm_compute.
Defined.
Lemma store_agree sz p v (s s1 : state val) q :
  store sz p v s = Ret tt s1 -> block_of q ≠ block_of p -> agree_at q s s1.
Proof.
  unfold store. destruct p as [|b o]; [done|].
  destruct (heap s !! b); [|done]. destruct (bool_decide _); [|done].
  intros [= <-] Hne b' Hb. simpl in *. rewrite lookup_insert_ne; [done|congruence].
Qed.

Lemma free_agree p (s s1 : state val) q :
  free p s = Ret tt s1 -> block_of q ≠ block_of p -> agree_at q s s1.
Proof.
  unfold free. destruct p as [|b o]; [by intros [= <-]|].
  destruct (heap s !! b); [|done]. destruct (decide _); [|done].
  intros [= <-] Hne b' Hb. simpl in *. rewrite lookup_delete_ne; [done|congruence].
Qed.

Lemma agree_at_trans q (s s1 s2 : state val) :
  agree_at q s s1 -> agree_at q s1 s2 -> agree_at q s s2.
Proof. intros A B b Hb. by rewrite (B b Hb), (A b Hb). Qed.

(** [sptr_free] on an argument that keeps its value while the macro
    works. *)
Lemma sptr_free_stable at_ (sp : M val sptr) h s :
  sp s = Ret h s ->
  (forall s1, store 1 (isf h) (Vint 1) s = Ret tt s1 -> sp s1 = Ret h s1) ->
  (forall s1 s2, store 1 (isf h) (Vint 1) s = Ret tt s1 ->
     free (ptr h) s1 = Ret tt s2 -> sp s2 = Ret h s2) ->
  sptr_free at_ sp s = sptr_free at_ (mret h) s.
Proof.
  intros E E1 E2. unfold sptr_free.
  rewrite !mbind_unfold, (flag_test_value sp h s E).
  destruct (flag_test (mret h) s) as [d s0| |] eqn:F; try done.
  apply flag_test_reads_only in F as ->.
  destruct d; [done|].
  rewrite (mbind_ret sp _ s h s E), (mbind_ret (mret h) _ s h s eq_refl).
  rewrite !mbind_unfold.
  destruct (store 1 (isf h) (Vint 1) s) as [[] s1| |] eqn:S; try done.
  rewrite (mbind_ret sp _ s1 h s1 (E1 s1 eq_refl)), (mbind_ret (mret h) _ s1 h s1 eq_refl).
  rewrite !mbind_unfold.
  destruct (free (ptr h) s1) as [[] s2| |] eqn:R; try done.
  by rewrite (mbind_ret sp _ s2 h s2 (E2 s1 s2 eq_refl R)),
    (mbind_ret (mret h) _ s2 h s2 eq_refl).
Qed.

(** X9.  A row is released through the matrix: on a matrix whose flag is
    clear and whose element [i] holds a handle [r] that [sptr_free]
    accepts and that shares no block with the matrix,
    [sptr_free(sptr_at(sptr, m, i))] does what [sptr_free] does on [r],
    although the macro evaluates its argument again after each step; the
    matrix keeps its flag and still holds the handle of the released
    row. *)
Theorem free_row_expression (at_ : site) (m r : sptr) (i : Z) (s : state val) :
  flag_clear m s = true -> 0 <= i < size m -> i < 2 ^ 64 ->
  holds_row m i r s = true ->
  releasable r s = true -> separate r m = true ->
  sptr_free at_ (row at_ (mret m) i) s = Ret tt (released r s) /\
  flag_clear m (released r s) = true /\
  holds_row m i r (released r s) = true.
Proof.
  intros F Hi Hi' H L (S1 & S2 & S3 & S4)%bool_decide_eq_true.
  assert (K : forall s', agree_at (ptr m) s s' -> agree_at (isf m) s s' ->
                row at_ (mret m) i s' = Ret r s').
  { intros s' Ap Af. apply row_value; try done.
    - by rewrite (flag_clear_agree m s s' Af).
    - by rewrite (holds_row_agree m i r s s' Ap). }
  split_and!.
  - rewrite (sptr_free_stable at_ _ r s).
    + by apply sptr_free_releasable.
    + apply K; by intros b Hb.
    + intros s1 S. apply K; by apply (store_agree _ _ _ _ _ _ S).
    + intros s1 s2 S R.
      apply K; (eapply agree_at_trans;
        [by apply (store_agree _ _ _ _ _ _ S)|by apply (free_agree _ _ _ _ R)]).
  - rewrite (flag_clear_agree m s); [done|]. by apply released_agree.
  - rewrite (holds_row_agree m i r s); [done|]. by apply released_agree.
Qed.

Lemma free_row_expression_witness :
  flag_clear Samples.h_m Samples.s_m = true /\
  0 <= 1 < size Samples.h_m /\ 1 < 2 ^ 64 /\
  holds_row Samples.h_m 1 Samples.h_r1 Samples.s_m = true /\
  releasable Samples.h_r1 Samples.s_m = true /\
  separate Samples.h_r1 Samples.h_m = true /\
  sptr_free (here 7) (row (here 7) (mret Samples.h_m) 1) Samples.s_m
    = Ret tt (released Samples.h_r1 Samples.s_m) /\
  flag_clear Samples.h_m (released Samples.h_r1 Samples.s_m) = true /\
  holds_row Samples.h_m 1 Samples.h_r1 (released Samples.h_r1 Samples.s_m) = true.
Proof.
  split; [by vm_compute|]. split; [by vm_compute|]. split; [lia|].
  split; [by vm_compute|]. split; [by vm_compute|]. split; [by vm_compute|].
  apply (free_row_expression (here 7) Samples.h_m Samples.h_r1 1 Samples.s_m);
    by vm_compute.
Defined.
End Matrices.

(** ** The release build on its own *)

Section ReleaseBuild.
Import ReleaseMode.

Lemma release_sizeof_pos T : 0 < sizeof T.
Proof. destruct T; simpl; lia. Qed.

Lemma owns_inv T n h s :
  owns T n h s = true ->
  exists b k, ptr h = Ptr b 0 /\ heap s !! b = Some k /\ 0 <= n /\
    bsize k = sizeof T * n.
Proof.
  unfold owns. destruct (ptr h) as [|b o]; [done|].
  destruct (heap s !! b) as [k|] eqn:Hb; [|done].
  intros (-> & ? & ?)%bool_decide_eq_true. by exists b, k.
Qed.

Lemma release_at_value T h i (s : state val) :
  sptr_at T (mret h) i s = Ret (ptr_add (ptr h) (i * sizeof T)) s.
Proof. reflexivity. Qed.

Lemma release_convert_has_type T v w : convert T v = Some w -> has_type T w = true.
Proof.
  unfold has_type. intros E. apply bool_decide_eq_true_2.
  destruct T, v; simpl in E; try done.
  - injection E as <-. simpl. by rewrite to_char_idem.
  - injection E as <-. simpl. by rewrite to_int_idem.
  - injection E as <-. simpl. by rewrite to_long_idem.
  - by injection E as <-.
  - destruct (decide _) as [->|]; [|done]. injection E as <-. simpl.
    by rewrite decide_True.
Qed.

(** X10.  Element access in the release build, on a handle that points to
    a block of [n] elements: at an index in [0, n) a write of [v] stores
    [v] converted to the element type and a read then yields that, [v]
    itself when [v] is a value of the type; at any other index neither
    macro reports anything, and the access is undefined. *)
Theorem release_access (T : ctype) (n : Z) (h : sptr) (s : state val) :
  owns T n h s = true ->
  (forall i v w, 0 <= i < n -> convert T v = Some w ->
     exists s', release_put T h i v s = Ret tt s' /\
       release_get T h i s' = Ret w s' /\
       (has_type T v = true -> w = v) /\ owns T n h s' = true) /\
  (forall i v, ~ (0 <= i < n) ->
     release_put T h i v s = Undef /\ release_get T h i s = Undef).
Proof.
  intros O. destruct (owns_inv _ _ _ _ O) as (b & k & Ep & Hb & Hn & Hs).
  pose proof (release_sizeof_pos T) as Hp.
  split.
  - intros i v w Hi Hc.
    assert (B : bool_decide (0 <= 0 + i * sizeof T /\
                 0 + i * sizeof T + sizeof T <= bsize k) = true).
    { apply bool_decide_eq_true_2. nia. }
    eexists. split_and!.
    + unfold release_put. rewrite (mbind_ret _ _ _ _ _ (release_at_value T h i s)).
      unfold wr. rewrite Hc. unfold store. rewrite Ep. cbn [ptr_add].
      by rewrite Hb, B.
    + unfold release_get. rewrite (mbind_ret _ _ _ _ _ (release_at_value T h i _)).
      unfold rd. rewrite mbind_unfold.
      unfold load. rewrite Ep. cbn [ptr_add set_heap heap].
      rewrite lookup_insert_eq. cbn [bsize put]. rewrite B, put_lookup.
      cbn [csize cval]. rewrite decide_True by done.
      by rewrite (release_convert_has_type T v w Hc).
    + intros Ht%bool_decide_eq_true. congruence.
    + unfold owns. rewrite Ep. cbn [set_heap heap]. rewrite lookup_insert_eq.
      by apply bool_decide_eq_true_2.
  - intros i v Hi.
    assert (B : bool_decide (0 <= 0 + i * sizeof T /\
                 0 + i * sizeof T + sizeof T <= bsize k) = false).
    { apply bool_decide_eq_false_2. nia. }
    split.
    + unfold release_put. rewrite (mbind_ret _ _ _ _ _ (release_at_value T h i s)).
      unfold wr. destruct (convert T v); [|done].
      unfold store. rewrite Ep. cbn [ptr_add]. by rewrite Hb, B.
    + unfold release_get. rewrite (mbind_ret _ _ _ _ _ (release_at_value T h i s)).
      unfold rd. rewrite mbind_unfold.
      unfold load. rewrite Ep. cbn [ptr_add]. by rewrite Hb, B.
Qed.

Lemma release_access_witness :
  owns Tchar 4 (Sptr (Ptr 1 0) 4) (final (sptr_alloc Tchar (Prim 4)) (init [])) = true /\
  (forall i v w, 0 <= i < 4 -> convert Tchar v = Some w ->
     exists s',
       release_put Tchar (Sptr (Ptr 1 0) 4) i v
         (final (sptr_alloc Tchar (Prim 4)) (init [])) = Ret tt s' /\
       release_get Tchar (Sptr (Ptr 1 0) 4) i s' = Ret w s' /\
       (has_type Tchar v = true -> w = v) /\
       owns Tchar 4 (Sptr (Ptr 1 0) 4) s' = true) /\
  (forall i v, ~ (0 <= i < 4) ->
     release_put Tchar (Sptr (Ptr 1 0) 4) i v
       (final (sptr_alloc Tchar (Prim 4)) (init [])) = Undef /\
     release_get Tchar (Sptr (Ptr 1 0) 4) i
       (final (sptr_alloc Tchar (Prim 4)) (init [])) = Undef).
Proof.
  split; [by vm_compute|].
  apply (release_access Tchar 4 (Sptr (Ptr 1 0) 4)
           (final (sptr_alloc Tchar (Prim 4)) (init []))). by vm_compute.
Defined.

(** X11.  The release build detects nothing after a release: on a handle
    that points to an allocated block, [sptr_free] frees the block; from
    then on a second [sptr_free] and every element access through the
    handle are undefined, and nothing is reported. *)
Theorem release_after_free (T : ctype) (n : Z) (h : sptr) (s : state val) :
  owns T n h s = true ->
  exists s',
    sptr_free (mret h) s = Ret tt s' /\
    stderr s' = stderr s /\
    sptr_free (mret h) s' = Undef /\
    forall T' i v, release_put T' h i v s' = Undef /\ release_get T' h i s' = Undef.
Proof.
  intros O. destruct (owns_inv _ _ _ _ O) as (b & k & Ep & Hb & Hn & Hs).
  exists (set_heap (delete b (heap s)) s).
  assert (D : heap (set_heap (delete b (heap s)) s) !! b = None).
  { simpl. apply lookup_delete_eq. }
  split_and!.
  - unfold sptr_free. rewrite (mbind_ret (mret h) _ s h s eq_refl), Ep.
    unfold free. rewrite Hb. by rewrite decide_True.
  - done.
  - unfold sptr_free. rewrite (mbind_ret (mret h) _ _ h _ eq_refl), Ep.
    unfold free. by rewrite D.
  - intros T' i v. split.
    + unfold release_put. rewrite (mbind_ret _ _ _ _ _ (release_at_value T' h i _)).
      unfold wr. destruct (convert T' v); [|done].
      unfold store. rewrite Ep. cbn [ptr_add]. by rewrite D.
    + unfold release_get. rewrite (mbind_ret _ _ _ _ _ (release_at_value T' h i _)).
      unfold rd. rewrite mbind_unfold.
      unfold load. rewrite Ep. cbn [ptr_add]. by rewrite D.
Qed.

Lemma release_after_free_witness :
  owns Tint 4 ReleaseSamples.h_a ReleaseSamples.s_a = true /\
  exists s',
    sptr_free (mret ReleaseSamples.h_a) ReleaseSamples.s_a = Ret tt s' /\
    stderr s' = stderr ReleaseSamples.s_a /\
    sptr_free (mret ReleaseSamples.h_a) s' = Undef /\
    forall T' i v,
      release_put T' ReleaseSamples.h_a i v s' = Undef /\
      release_get T' ReleaseSamples.h_a i s' = Undef.
Proof.
  split; [by vm_compute|].
  apply (release_after_free Tint 4 ReleaseSamples.h_a ReleaseSamples.s_a).
  by vm_compute.
Defined.

(** X12.  [sptr_alloc] of the release build never tests what [malloc]
    returned and never reports.  A granted request gives a handle to a
    fresh block of as many bytes as [sizeof(T) * e] comes to with the text
    [e] of the count pasted in, and the count of the handle is the value
    of [e] converted to [int]; the block has room for exactly [n] elements
    when [e] is a constant [n >= 0] and [sizeof(T) * n] does not wrap.  A
    refused request gives a handle whose pointer is [NULL]: [sptr_free] on
    it does nothing, and every element access through it is undefined. *)
Theorem release_alloc_outcomes (T : ctype) (e : text)
    (hp : gmap block (blk val)) (nx : block) (rest : list bool)
    (lc : gmap string val) (er : list diag) :
  (exists h s',
     sptr_alloc T e (State hp nx (true :: rest) lc er) = Ret h s' /\
     stderr s' = er /\ size h = to_int (count e) /\ ptr h = Ptr nx 0 /\
     heap s' !! nx = Some (Blk (to_size_t (pasted (sizeof T) e)) ∅) /\
     (forall n, e = Prim n -> 0 <= n -> sizeof T * n < 2 ^ 64 ->
        owns T n h s' = true)) /\
  (exists h,
     sptr_alloc T e (State hp nx (false :: rest) lc er) = Ret h (State hp nx rest lc er) /\
     ptr h = Null /\
     sptr_free (mret h) (State hp nx rest lc er) = Ret tt (State hp nx rest lc er) /\
     forall T' i v,
       release_put T' h i v (State hp nx rest lc er) = Undef /\
       release_get T' h i (State hp nx rest lc er) = Undef).
Proof.
  split.
  - eexists _, _. split; [reflexivity|]. split_and!; try done.
    + simpl. apply lookup_insert_eq.
    + intros n -> Hn Hw. unfold owns. simpl. rewrite lookup_insert_eq.
      apply bool_decide_eq_true_2. split_and!; try done. simpl.
      pose proof (release_sizeof_pos T).
      unfold to_size_t. rewrite Z.mod_small; [done|nia].
  - eexists. split; [reflexivity|]. split_and!; try done.
    intros T' i v. split.
    + unfold release_put, wr. rewrite mbind_unfold. simpl.
      by destruct (convert T' v).
    + done.
Qed.
End ReleaseBuild.
